(** * A shallow embedding of the JSON-backed todo server

    The Python module [awesome-todo-server.py] keeps two JSON files (the
    active task list and the archive) and exposes a handful of tools over
    them.  This development models

    - the Python values that flow through the tools ([value]), with the
      fragments of Python semantics the tools rely on (truthiness, [==],
      [<], [dict.get], [str.split], [str.strip], [str(date)]);
    - the two files as a [store], and the tools as computations in a state
      and exception monad over that store;
    - the [Task] model and its validation;

    and then proves what the tools do. *)

From Stdlib Require Import ZArith String Ascii List Bool Lia.
From Stdlib Require Import Sorted Permutation DecimalString.
Import ListNotations.

#[local] Set Warnings "-register-all".

Local Open Scope string_scope.
Local Open Scope list_scope.

(** ** Exceptions and results

    Only the exception classes that the tools can meet are listed.
    [PermissionError] stands for the [OSError]s raised by [open] on a path
    that exists but cannot be read.  [json.load] raises [JSONDecodeError]
    on text that is not JSON, [UnicodeDecodeError] on bytes that are not
    UTF-8, [ValueError] on a number too long to convert and
    [RecursionError] on nesting too deep.  An [except] clause of the tools
    names [JSONDecodeError] and [FileNotFoundError] only, and none of the
    other classes listed is a subclass of these two, so a clause catches
    an exception exactly when it names its class. *)

Inductive exn :=
| JSONDecodeError
| FileNotFoundError
| PermissionError
| UnicodeDecodeError
| ValueError
| RecursionError
| TypeError
| AttributeError
| ValidationError.

Definition exn_eqb (a b : exn) : bool :=
  match a, b with
  | JSONDecodeError, JSONDecodeError
  | FileNotFoundError, FileNotFoundError
  | PermissionError, PermissionError
  | UnicodeDecodeError, UnicodeDecodeError
  | ValueError, ValueError
  | RecursionError, RecursionError
  | TypeError, TypeError
  | AttributeError, AttributeError
  | ValidationError, ValidationError => true
  | _, _ => false
  end.

Inductive result (A : Type) :=
| Ok (a : A)
| Raise (e : exn).

Arguments Ok {A} a.
Arguments Raise {A} e.

Definition rbind {A B} (r : result A) (k : A -> result B) : result B :=
  match r with
  | Ok a => k a
  | Raise e => Raise e
  end.

Notation "'let?' x ':=' e 'in' k" := (rbind e (fun x => k))
  (at level 10, x pattern, e at level 200, k at level 200).

(** A comprehension [[f(t) for t in l]]: left to right, stopping at the
    first exception. *)
Fixpoint mapR {A B} (f : A -> result B) (l : list A) : result (list B) :=
  match l with
  | [] => Ok []
  | x :: l' =>
      let? y := f x in
      let? ys := mapR f l' in
      Ok (y :: ys)
  end.

(** A comprehension [[t for t in l if p(t)]]. *)
Fixpoint filterR {A} (p : A -> result bool) (l : list A) : result (list A) :=
  match l with
  | [] => Ok []
  | x :: l' =>
      let? b := p x in
      let? ys := filterR p l' in
      Ok (if b then x :: ys else ys)
  end.

(** ** Calendar dates ([datetime.date]) *)

Record date := mkdate { year : Z; month : Z; day : Z }.

Section Dates.
Local Open Scope Z_scope.

Definition is_leap (y : Z) : bool :=
  ((y mod 4 =? 0) && negb (y mod 100 =? 0)) || (y mod 400 =? 0).

Definition days_in_month (y m : Z) : Z :=
  if m =? 2 then (if is_leap y then 29 else 28)
  else if (m =? 4) || (m =? 6) || (m =? 9) || (m =? 11) then 30
  else 31.

(** The values a [date] object can take: years 1 to 9999. *)
Definition date_valid (d : date) : bool :=
  (1 <=? year d) && (year d <=? 9999) &&
  (1 <=? month d) && (month d <=? 12) &&
  (1 <=? day d) && (day d <=? days_in_month (year d) (month d)).

(** [date.max] *)
Definition date_max : date := mkdate 9999 12 31.

Definition date_compare (a b : date) : comparison :=
  match year a ?= year b with
  | Eq => match month a ?= month b with
          | Eq => day a ?= day b
          | c => c
          end
  | c => c
  end.

Definition date_eqb (a b : date) : bool :=
  match date_compare a b with Eq => true | _ => false end.

Definition date_ltb (a b : date) : bool :=
  match date_compare a b with Lt => true | _ => false end.

Definition date_leb (a b : date) : bool :=
  match date_compare a b with Gt => false | _ => true end.

Definition digit_char (n : Z) : ascii := ascii_of_N (48 + Z.to_N n).

(** ["%0wd" % n] for [0 <= n < 10^w]. *)
Fixpoint zpad (w : nat) (n : Z) : string :=
  match w with
  | O => EmptyString
  | S w' => zpad w' (n / 10) ++ String (digit_char (n mod 10)) EmptyString
  end.

(** [date.isoformat], which is also [str(date)]: ["%04d-%02d-%02d"]. *)
Definition isoformat (d : date) : string :=
  zpad 4 (year d) ++ "-" ++ zpad 2 (month d) ++ "-" ++ zpad 2 (day d).

Definition digit_val (c : ascii) : option Z :=
  let n := N_of_ascii c in
  if (48 <=? n)%N && (n <=? 57)%N then Some (Z.of_N n - 48) else None.

(** The date strings that validation of a [date] field accepts:
    exactly [YYYY-MM-DD] naming a real calendar day. *)
Definition date_fromisoformat (s : string) : option date :=
  match s with
  | String y3 (String y2 (String y1 (String y0 (String s1
      (String m1 (String m0 (String s2 (String d1 (String d0 EmptyString))))))))) =>
      match digit_val y3, digit_val y2, digit_val y1, digit_val y0,
            digit_val m1, digit_val m0, digit_val d1, digit_val d0 with
      | Some a, Some b, Some c, Some d, Some e, Some f, Some g, Some h =>
          let dt := mkdate (1000 * a + 100 * b + 10 * c + d) (10 * e + f) (10 * g + h) in
          if Ascii.eqb s1 "-" && Ascii.eqb s2 "-" && date_valid dt
          then Some dt else None
      | _, _, _, _, _, _, _, _ => None
      end
  | _ => None
  end.

End Dates.

(** ** Strings ([str])

    A [str] is modelled by its code points, restricted to those below
    256. *)

(** [str.isspace] on one character, for code points below 256. *)
Definition is_space (c : ascii) : bool :=
  let n := N_of_ascii c in
  ((9 <=? n) && (n <=? 13) || (28 <=? n) && (n <=? 32) || (n =? 133) || (n =? 160))%N.

Fixpoint lstrip (s : string) : string :=
  match s with
  | EmptyString => EmptyString
  | String c s' => if is_space c then lstrip s' else s
  end.

Definition is_empty (s : string) : bool :=
  match s with EmptyString => true | _ => false end.

Fixpoint rstrip (s : string) : string :=
  match s with
  | EmptyString => EmptyString
  | String c s' =>
      let r := rstrip s' in
      if is_space c && is_empty r then EmptyString else String c r
  end.

(** [s.strip()] *)
Definition strip (s : string) : string := rstrip (lstrip s).

(** [s.split(sep)] for a one-character separator: every occurrence of
    [sep] ends a fragment, empty fragments are kept. *)
Fixpoint split (sep : ascii) (s : string) : list string :=
  match s with
  | EmptyString => [EmptyString]
  | String c s' =>
      if Ascii.eqb c sep then EmptyString :: split sep s'
      else match split sep s' with
           | [] => [String c EmptyString]
           | p :: ps => String c p :: ps
           end
  end.

(** [str(n)] for an [int]. *)
Definition str_of_int (n : Z) : string := NilZero.string_of_int (Z.to_int n).

(** ** Python values

    What [json.load] produces (null, booleans, integers, strings, arrays,
    objects) together with [date] objects, which appear in memory only:
    as the [due] field of [Task.model_dump()] and as [date.max] in the sort
    key.  JSON floats are left out.  A [dict] is kept as the list of its
    items in insertion order, the order [json.dump] writes them in. *)

Inductive value :=
| VNone
| VBool (b : bool)
| VInt (n : Z)
| VStr (s : string)
| VDate (d : date)
| VList (items : list value)
| VDict (fields : list (string * value)).

Fixpoint lookup (k : string) (f : list (string * value)) : option value :=
  match f with
  | [] => None
  | (k', v) :: f' => if String.eqb k k' then Some v else lookup k f'
  end.

(** [d[k] = v]: an existing key keeps its position, a new key goes last. *)
Fixpoint assoc_set (k : string) (v : value) (f : list (string * value))
  : list (string * value) :=
  match f with
  | [] => [(k, v)]
  | (k', w) :: f' =>
      if String.eqb k k' then (k', v) :: f' else (k', w) :: assoc_set k v f'
  end.

(** [t.get(k, default)]; only a [dict] has the method. *)
Definition dict_get (t : value) (k : string) (default : value) : result value :=
  match t with
  | VDict f => Ok (match lookup k f with Some v => v | None => default end)
  | _ => Raise AttributeError
  end.

(** [t[k] = v] on a value obtained from [json.load]; the loop bodies reach
    it only after [t.get] succeeded, that is on a [dict]. *)
Definition dict_setitem (t : value) (k : string) (v : value) : result value :=
  match t with
  | VDict f => Ok (VDict (assoc_set k v f))
  | _ => Raise TypeError
  end.

(** [bool(v)] *)
Definition truthy (v : value) : bool :=
  match v with
  | VNone => false
  | VBool b => b
  | VInt n => negb (n =? 0)%Z
  | VStr s => negb (is_empty s)
  | VDate _ => true
  | VList l => match l with [] => false | _ => true end
  | VDict f => match f with [] => false | _ => true end
  end.

(** [bool] is a subclass of [int]: [True == 1]. *)
Definition as_int (v : value) : option Z :=
  match v with
  | VInt n => Some n
  | VBool b => Some (if b then 1 else 0)%Z
  | _ => None
  end.

(** [a == b] *)
Fixpoint py_eq (a b : value) {struct a} : bool :=
  match a, b with
  | VNone, VNone => true
  | VBool x, VBool y => Bool.eqb x y
  | VBool x, VInt n => ((if x then 1 else 0) =? n)%Z
  | VInt n, VBool y => (n =? (if y then 1 else 0))%Z
  | VInt n, VInt m => (n =? m)%Z
  | VStr s, VStr t => String.eqb s t
  | VDate d, VDate e => date_eqb d e
  | VList l, VList m =>
      (fix all2 (l m : list value) : bool :=
         match l, m with
         | [], [] => true
         | x :: l', y :: m' => py_eq x y && all2 l' m'
         | _, _ => false
         end) l m
  | VDict f, VDict g =>
      (length f =? length g)%nat &&
      (fix sub (f : list (string * value)) : bool :=
         match f with
         | [] => true
         | (k, v) :: f' =>
             match lookup k g with
             | Some w => py_eq v w
             | None => false
             end && sub f'
         end) f
  | _, _ => false
  end.

(** [a < b], which raises [TypeError] between values of unordered types. *)
Fixpoint py_lt (a b : value) {struct a} : result bool :=
  match a, b with
  | VBool x, VBool y => Ok ((if x then 1 else 0) <? (if y then 1 else 0))%Z
  | VBool x, VInt n => Ok ((if x then 1 else 0) <? n)%Z
  | VInt n, VBool y => Ok (n <? (if y then 1 else 0))%Z
  | VInt n, VInt m => Ok (n <? m)%Z
  | VStr s, VStr t => Ok (String.ltb s t)
  | VDate d, VDate e => Ok (date_ltb d e)
  | VList l, VList m =>
      (fix lex (l m : list value) : result bool :=
         match l, m with
         | [], [] => Ok false
         | [], _ :: _ => Ok true
         | _ :: _, [] => Ok false
         | x :: l', y :: m' => if py_eq x y then lex l' m' else py_lt x y
         end) l m
  | _, _ => Raise TypeError
  end.

(** What [json.load] reads back after [json.dump(v, f, default=str)]:
    the same value with every [date] replaced by its [str]. *)
Fixpoint json_roundtrip (v : value) : value :=
  match v with
  | VDate d => VStr (isoformat d)
  | VList l => VList (map json_roundtrip l)
  | VDict f => VDict (map (fun kv => (fst kv, json_roundtrip (snd kv))) f)
  | _ => v
  end.

(** The values that a JSON file can hold: no [date] object anywhere. *)
Fixpoint is_json (v : value) : bool :=
  match v with
  | VDate _ => false
  | VList l => forallb is_json l
  | VDict f => forallb (fun kv => is_json (snd kv)) f
  | _ => true
  end.

(** ** The two files and the monad of the tools

    [DATA_PATH] names the active list; [archive_path] is the sibling
    [todo_archive.json], taken to be a different file.  A file is absent,
    or it is present and reading it ([open], the decoding of its bytes,
    [json.load]) raises an exception, or it is present and holds a JSON
    value.  [written] logs every write, latest first, so that "no write
    is performed" can be told from "the same content is written
    again". *)

Inductive path := DATA_PATH | archive_path.

Inductive file :=
| FMissing
| FFails (e : exn)
| FJson (v : value).

(** A file that [open] refuses, and a file whose bytes are not UTF-8. *)
Definition FUnreadable : file := FFails PermissionError.
Definition FUndecodable : file := FFails UnicodeDecodeError.

Record store := mkstore {
  active : file;
  archive : file;
  written : list path
}.

Definition file_at (p : path) (st : store) : file :=
  match p with
  | DATA_PATH => active st
  | archive_path => archive st
  end.

Definition put_file (p : path) (f : file) (st : store) : store :=
  match p with
  | DATA_PATH => mkstore f (archive st) (p :: written st)
  | archive_path => mkstore (active st) f (p :: written st)
  end.

Definition M (A : Type) : Type := store -> result A * store.

Definition ret {A} (a : A) : M A := fun st => (Ok a, st).

Definition raise {A} (e : exn) : M A := fun st => (Raise e, st).

Definition bind {A B} (m : M A) (k : A -> M B) : M B :=
  fun st =>
    match m st with
    | (Ok a, st') => k a st'
    | (Raise e, st') => (Raise e, st')
    end.

Notation "x <- m ;; k" := (bind m (fun x => k))
  (at level 61, m at next level, right associativity).
Notation "m ;;; k" := (bind m (fun _ => k))
  (at level 61, right associativity).

(** A computation that touches no file. *)
Definition lift {A} (r : result A) : M A := fun st => (r, st).

(** [try: m  except (e1, ..., en): h] *)
Definition try_except {A} (m : M A) (caught : list exn) (h : M A) : M A :=
  fun st =>
    match m st with
    | (Raise e, st') => if existsb (exn_eqb e) caught then h st' else (Raise e, st')
    | r => r
    end.

(** [os.path.exists(p)] *)
Definition os_path_exists (p : path) : M bool :=
  fun st => (Ok (match file_at p st with FMissing => false | _ => true end), st).

(** [with open(p, "r", encoding="utf-8") as f: json.load(f)] *)
Definition json_load (p : path) : M value :=
  fun st =>
    match file_at p st with
    | FMissing => (Raise FileNotFoundError, st)
    | FFails e => (Raise e, st)
    | FJson v => (Ok v, st)
    end.

(** [with open(p, "w", encoding="utf-8") as f:
       json.dump(v, f, indent=2, default=str)]
    The file then holds the text of [v], which reads back as
    [json_roundtrip v]. *)
Definition json_dump (p : path) (v : value) : M unit :=
  fun st => (Ok tt, put_file p (FJson (json_roundtrip v)) st).

(** ** The [Task] model *)

Record Task := mkTask {
  id : Z;
  title : string;
  description : string;
  due : date;
  important : bool;
  urgent : bool;
  subtasks : list string;
  completed : bool
}.

(** [task.model_dump()] *)
Definition model_dump (t : Task) : value :=
  VDict [ ("id", VInt (id t));
          ("title", VStr (title t));
          ("description", VStr (description t));
          ("due", VDate (due t));
          ("important", VBool (important t));
          ("urgent", VBool (urgent t));
          ("subtasks", VList (map VStr (subtasks t)));
          ("completed", VBool (completed t)) ].

(** *** Validation

    [Task] applied to the unpacked mapping [t] is the work of the
    validating library, which is no part of the repository.  What it does
    with a value of the field's own type is fixed: an integer for [id], a
    string for [title] and [description], a boolean for the three flags, a
    list of strings for [subtasks], and for [due] a [date] or the
    [YYYY-MM-DD] string of a real day.  Any other value (the string ["1"]
    for an integer, the number 1 or the string ["no"] for a boolean, a
    date with a time of day) the library may coerce or refuse.  That
    conduct is not modelled; it is a parameter, and what is proved holds
    whatever it is.  [None] stands for a refusal. *)

Class Coercions := {
  lax_int : value -> option Z;
  lax_str : value -> option string;
  lax_bool : value -> option bool;
  lax_date : value -> option date;
  lax_str_list : value -> option (list string)
}.

Definition lax_result {A} (o : option A) : result A :=
  match o with
  | Some a => Ok a
  | None => Raise ValidationError
  end.

(** The strings of a list whose items are all strings. *)
Fixpoint exact_strs (l : list value) : option (list string) :=
  match l with
  | [] => Some []
  | VStr s :: l' =>
      match exact_strs l' with
      | Some ss => Some (s :: ss)
      | None => None
      end
  | _ :: _ => None
  end.

Definition required (f : list (string * value)) (k : string) : result value :=
  match lookup k f with
  | Some v => Ok v
  | None => Raise ValidationError
  end.

Section Validation.
Context {lax : Coercions}.

Definition want_int (v : value) : result Z :=
  match v with
  | VInt n => Ok n
  | _ => lax_result (lax_int v)
  end.

Definition want_str (v : value) : result string :=
  match v with
  | VStr s => Ok s
  | _ => lax_result (lax_str v)
  end.

Definition want_bool (v : value) : result bool :=
  match v with
  | VBool b => Ok b
  | _ => lax_result (lax_bool v)
  end.

Definition want_date (v : value) : result date :=
  match v with
  | VDate d => if date_valid d then Ok d else lax_result (lax_date v)
  | VStr s => match date_fromisoformat s with
              | Some d => Ok d
              | None => lax_result (lax_date v)
              end
  | _ => lax_result (lax_date v)
  end.

Definition want_str_list (v : value) : result (list string) :=
  match v with
  | VList l => match exact_strs l with
               | Some ss => Ok ss
               | None => lax_result (lax_str_list v)
               end
  | _ => lax_result (lax_str_list v)
  end.

(** [Task] applied to the unpacked mapping [t].  A [t] that is no mapping
    cannot be unpacked; otherwise the six required fields must be present
    and every field must validate; [subtasks] and [completed] have
    defaults; keys that are no field are ignored. *)
Definition Task_validate (t : value) : result Task :=
  match t with
  | VDict f =>
      let? i := (let? v := required f "id" in want_int v) in
      let? ti := (let? v := required f "title" in want_str v) in
      let? de := (let? v := required f "description" in want_str v) in
      let? du := (let? v := required f "due" in want_date v) in
      let? im := (let? v := required f "important" in want_bool v) in
      let? ur := (let? v := required f "urgent" in want_bool v) in
      let? su := match lookup "subtasks" f with
                 | Some v => want_str_list v
                 | None => Ok []
                 end in
      let? co := match lookup "completed" f with
                 | Some v => want_bool v
                 | None => Ok false
                 end in
      Ok (mkTask i ti de du im ur su co)
  | _ => Raise TypeError
  end.

End Validation.

(** ** Sorting with a key ([sorted(l, key=...)])

    Both [sort_key] functions build a tuple [(bool, bool, object)].
    Tuples compare lexicographically: the first position where the two
    differ under [==] decides under [<]. *)

Definition key : Type := bool * bool * value.

Definition bool_lt (a b : bool) : bool := negb a && b.

Definition tuple_lt (k1 k2 : key) : result bool :=
  let '(a1, b1, c1) := k1 in
  let '(a2, b2, c2) := k2 in
  if negb (Bool.eqb a1 a2) then Ok (bool_lt a1 a2)
  else if negb (Bool.eqb b1 b2) then Ok (bool_lt b1 b2)
  else if py_eq c1 c2 then Ok false
  else py_lt c1 c2.

(** The sort computes every key first and then orders the items with [<]
    on the keys alone.  It is stable: an item goes behind the items
    already placed that it is not smaller than.  The model inserts the
    items one by one from the left, asking [new < placed] as the library
    sort does; it yields the library's result whenever no comparison
    raises, and raises on two items exactly when their comparison does. *)
Section Sorted.
Context {K A : Type} (lt : K -> K -> result bool).

Fixpoint insertR (x : K * A) (l : list (K * A)) : result (list (K * A)) :=
  match l with
  | [] => Ok [x]
  | y :: l' =>
      let? b := lt (fst x) (fst y) in
      if b then Ok (x :: y :: l')
      else let? r := insertR x l' in Ok (y :: r)
  end.

Fixpoint sort_loop (placed todo : list (K * A)) : result (list (K * A)) :=
  match todo with
  | [] => Ok placed
  | x :: todo' =>
      let? placed' := insertR x placed in
      sort_loop placed' todo'
  end.

Definition sorted (l : list A) (keyf : A -> result K) : result (list A) :=
  let? keyed := mapR (fun t => let? k := keyf t in Ok (k, t)) l in
  let? s := sort_loop [] keyed in
  Ok (map snd s).

End Sorted.

(** ** The tools *)

Section Tools.
Context {lax : Coercions}.

Definition _load_tasks : M (list value) :=
  e <- os_path_exists DATA_PATH ;;
  if negb e then ret []
  else
    try_except
      (data <- json_load DATA_PATH ;;
       match data with
       | VList l => ret l
       | _ => ret []
       end)
      [JSONDecodeError; FileNotFoundError]
      (ret []).

(** [os.makedirs] only makes sure that the directory is there; the
    write is taken to succeed. *)
Definition _save_tasks (tasks : list value) : M unit :=
  json_dump DATA_PATH (VList tasks).

Definition list_tasks : M (list Task) :=
  raw <- _load_tasks ;;
  lift (mapR Task_validate raw).

Definition add_task (id : Z) (title description : string) (due : date)
    (important urgent : bool) (subtasks : option (list string))
    (completed : bool) : M Task :=
  let subtasks := match subtasks with None => [] | Some l => l end in
  let new_task :=
    mkTask id title description due important urgent subtasks completed in
  tasks <- _load_tasks ;;
  _save_tasks (tasks ++ [model_dump new_task]) ;;;
  ret new_task.

(** [[s.strip() for s in description.split(".") if s.strip()]] *)
Definition sentence_parts (description : value) : result (list string) :=
  match description with
  | VStr d =>
      Ok (map strip (filter (fun s => negb (is_empty (strip s))) (split "." d)))
  | _ => Raise AttributeError
  end.

(** The loop [for t in tasks] of [decompose_task]; [seen] are the items
    already passed.  The assignment changes the record inside [tasks],
    and it is [tasks] that is saved. *)
Fixpoint decompose_loop (task_id : Z) (seen rest : list value) : M (list string) :=
  match rest with
  | [] => ret []
  | t :: rest' =>
      i <- lift (dict_get t "id" VNone) ;;
      if py_eq i (VInt task_id) then
        description <- lift (dict_get t "description" (VStr EmptyString)) ;;
        parts <- lift (sentence_parts description) ;;
        t' <- lift (dict_setitem t "subtasks" (VList (map VStr parts))) ;;
        _save_tasks (seen ++ t' :: rest') ;;;
        ret parts
      else decompose_loop task_id (seen ++ [t]) rest'
  end.

Definition decompose_task (task_id : Z) : M (list string) :=
  tasks <- _load_tasks ;;
  decompose_loop task_id [] tasks.

Definition prioritise_sort_key (t : value) : result key :=
  let? i := dict_get t "important" (VBool false) in
  let? u := dict_get t "urgent" (VBool false) in
  let? d := dict_get t "due" (VDate date_max) in
  Ok (negb (truthy i), negb (truthy u), d).

Definition prioritise_tasks : M (list Task) :=
  raw_tasks <- _load_tasks ;;
  sorted_tasks <- lift (sorted tuple_lt raw_tasks prioritise_sort_key) ;;
  lift (mapR Task_validate sorted_tasks).

Definition recommend_sort_key (t : value) : result key :=
  let? i := dict_get t "important" (VBool false) in
  let? u := dict_get t "urgent" (VBool false) in
  let? d := dict_get t "due" (VDate date_max) in
  Ok (negb (truthy i), negb (truthy u), d).

(** [today] is what [date.today()] returns; [ctx] is unused. *)
Definition recommend_tasks_for_today (today : date) : M (list Task) :=
  raw_tasks <- _load_tasks ;;
  candidates <- lift (filterR
    (fun t => let? c := dict_get t "completed" (VBool false) in Ok (negb (truthy c)))
    raw_tasks) ;;
  sorted_candidates <- lift (sorted tuple_lt candidates recommend_sort_key) ;;
  let top_tasks := firstn 5 sorted_candidates in
  lift (mapR Task_validate top_tasks).

(** The loop [for t in tasks] of [mark_task_completed]. *)
Fixpoint mark_loop (task_id : Z) (seen rest : list value) : M string :=
  match rest with
  | [] => ret ("Task " ++ str_of_int task_id ++ " not found.")%string
  | t :: rest' =>
      i <- lift (dict_get t "id" VNone) ;;
      if py_eq i (VInt task_id) then
        t' <- lift (dict_setitem t "completed" (VBool true)) ;;
        _save_tasks (seen ++ t' :: rest') ;;;
        ret ("Task " ++ str_of_int task_id ++ " marked as completed.")%string
      else mark_loop task_id (seen ++ [t]) rest'
  end.

Definition mark_task_completed (task_id : Z) : M string :=
  tasks <- _load_tasks ;;
  mark_loop task_id [] tasks.

(** [archived_tasks.extend(completed_tasks)]; only a [list] has the method. *)
Definition list_extend (l : value) (more : list value) : result value :=
  match l with
  | VList items => Ok (VList (items ++ more))
  | _ => Raise AttributeError
  end.

Definition archive_completed_tasks : M string :=
  tasks <- _load_tasks ;;
  completed_tasks <- lift (filterR
    (fun t => let? c := dict_get t "completed" VNone in Ok (truthy c)) tasks) ;;
  incomplete_tasks <- lift (filterR
    (fun t => let? c := dict_get t "completed" VNone in Ok (negb (truthy c))) tasks) ;;
  match completed_tasks with
  | [] => ret "No completed tasks to archive."
  | _ :: _ =>
      _save_tasks incomplete_tasks ;;;
      e <- os_path_exists archive_path ;;
      archived_tasks <-
        (if e then
           try_except (json_load archive_path) [JSONDecodeError] (ret (VList []))
         else ret (VList [])) ;;
      archived_tasks <- lift (list_extend archived_tasks completed_tasks) ;;
      json_dump archive_path archived_tasks ;;;
      ret ("Archived " ++ str_of_int (Z.of_nat (length completed_tasks))
             ++ " completed tasks.")%string
  end.

Definition view_archived_tasks : M (list Task) :=
  e <- os_path_exists archive_path ;;
  if negb e then ret []
  else
    try_except
      (archived_tasks <- json_load archive_path ;;
       match archived_tasks with
       | VList l => lift (mapR Task_validate l)
       | _ => ret []
       end)
      [JSONDecodeError; FileNotFoundError]
      (ret []).

End Tools.

(** ** Notions used to state the properties *)

(** The field [k] of a stored record, [default] when it is absent. *)
Definition field (k : string) (default : value) (r : value) : value :=
  match r with
  | VDict f => match lookup k f with Some v => v | None => default end
  | _ => default
  end.

Definition is_dict (r : value) : bool :=
  match r with VDict _ => true | _ => false end.

(** The test [t.get("completed")] of the archiving tool. *)
Definition is_completed (r : value) : bool := truthy (field "completed" VNone r).

(** The test [t.get("id") == task_id] of the lookups by id. *)
Definition has_id (task_id : Z) (r : value) : bool :=
  py_eq (field "id" VNone r) (VInt task_id).

(** Files hold JSON: no [date] object survives a write. *)
Definition file_ok (f : file) : bool :=
  match f with
  | FJson v => is_json v
  | _ => true
  end.

Definition store_ok (st : store) : bool :=
  file_ok (active st) && file_ok (archive st).

(** The collection an archive file stands for: the JSON list it holds,
    or nothing when it is absent or when [json.load] rejects its text
    with [JSONDecodeError].  Other contents, and files whose reading fails
    in another way, stand for no collection. *)
Definition archive_collection (f : file) : option (list value) :=
  match f with
  | FJson (VList l) => Some l
  | FMissing => Some []
  | FFails JSONDecodeError => Some []
  | _ => None
  end.

(** A computation that leaves the files and the write log as they are. *)
Definition readonly {A} (m : M A) : Prop := forall st, snd (m st) = st.

(** What [_load_tasks] makes of each state of the active file. *)
Definition load_outcome (f : file) : result (list value) :=
  match f with
  | FMissing => Ok []
  | FFails JSONDecodeError => Ok []
  | FFails FileNotFoundError => Ok []
  | FFails e => Raise e
  | FJson (VList l) => Ok l
  | FJson _ => Ok []
  end.

(** *** Records as the tools write them

    A record that [add_task] wrote, also after [mark_task_completed] and
    [decompose_task] changed it, holds every field in the field's own JSON
    type: a number for [id], strings for [title] and [description], the
    [YYYY-MM-DD] string of a real day for [due], JSON booleans for the
    flags and a list of strings for [subtasks].  [exact_task r] is the
    task such a record holds; it is [None] for a record with a field of
    another type, whatever the validating library makes of it. *)

Definition obind {A B} (o : option A) (k : A -> option B) : option B :=
  match o with
  | Some a => k a
  | None => None
  end.

Notation "'let!' x ':=' e 'in' k" := (obind e (fun x => k))
  (at level 10, x pattern, e at level 200, k at level 200).

Fixpoint mapO {A B} (f : A -> option B) (l : list A) : option (list B) :=
  match l with
  | [] => Some []
  | x :: l' =>
      let! y := f x in
      let! ys := mapO f l' in
      Some (y :: ys)
  end.

Definition exact_int (v : value) : option Z :=
  match v with VInt n => Some n | _ => None end.

Definition exact_str (v : value) : option string :=
  match v with VStr s => Some s | _ => None end.

Definition exact_bool (v : value) : option bool :=
  match v with VBool b => Some b | _ => None end.

Definition exact_day (v : value) : option date :=
  match v with VStr s => date_fromisoformat s | _ => None end.

Definition exact_list (v : value) : option (list string) :=
  match v with VList l => exact_strs l | _ => None end.

Definition exact_task (r : value) : option Task :=
  match r with
  | VDict f =>
      let! i := (let! v := lookup "id" f in exact_int v) in
      let! ti := (let! v := lookup "title" f in exact_str v) in
      let! de := (let! v := lookup "description" f in exact_str v) in
      let! du := (let! v := lookup "due" f in exact_day v) in
      let! im := (let! v := lookup "important" f in exact_bool v) in
      let! ur := (let! v := lookup "urgent" f in exact_bool v) in
      let! su := match lookup "subtasks" f with
                 | Some v => exact_list v
                 | None => Some []
                 end in
      let! co := match lookup "completed" f with
                 | Some v => exact_bool v
                 | None => Some false
                 end in
      Some (mkTask i ti de du im ur su co)
  | _ => None
  end.

(** The tasks that the active file stores, when every record that
    [_load_tasks] finds in it is as the tools write them. *)
Definition typed_tasks (st : store) : option (list Task) :=
  match fst (_load_tasks st) with
  | Ok raw => mapO exact_task raw
  | Raise _ => None
  end.

(** The stored record [r] is the task [t]. *)
Definition stored_as (r : value) (t : Task) : Prop :=
  exact_task r = Some t /\ is_json r = true.

(** A validating library that coerces nothing. *)
Definition no_coercions : Coercions :=
  {| lax_int := fun _ => None;
     lax_str := fun _ => None;
     lax_bool := fun _ => None;
     lax_date := fun _ => None;
     lax_str_list := fun _ => None |}.

(** A validating library with one coercion, which the library has when
    it is used as the source uses it: for a boolean field the strings
    ["false"] and ["true"] are read as the booleans.  Every other value
    that is not of the field's own type is refused here; the examples
    that use this instance hold no such value. *)
Definition flag_words : Coercions :=
  {| lax_int := fun _ => None;
     lax_str := fun _ => None;
     lax_bool := fun v =>
       match v with
       | VStr s => if String.eqb s "false" then Some false
                   else if String.eqb s "true" then Some true
                   else None
       | _ => None
       end;
     lax_date := fun _ => None;
     lax_str_list := fun _ => None |}.

(** The earlier of two dates. *)
Definition date_lt (a b : date) : Prop :=
  (year a < year b \/
   (year a = year b /\
    (month a < month b \/ (month a = month b /\ day a < day b))))%Z.

(** The four quadrants, in the order of the priority policy. *)
Definition quadrant (t : Task) : nat :=
  match important t, urgent t with
  | true, true => 0
  | true, false => 1
  | false, true => 2
  | false, false => 3
  end.

(** [a] may stand before [b]: an earlier quadrant, or the same quadrant
    and a due date that is not later. *)
Definition eisenhower_le (a b : Task) : Prop :=
  (quadrant a < quadrant b)%nat \/
  (quadrant a = quadrant b /\ date_leb (due a) (due b) = true).

(** The sort key of a stored task, and [<] on two such keys, in terms of
    the task's fields. *)
Definition task_key (t : Task) : key :=
  (negb (important t), negb (urgent t), VStr (isoformat (due t))).

Definition task_ltb (a b : Task) : bool :=
  if negb (Bool.eqb (negb (important a)) (negb (important b)))
  then bool_lt (negb (important a)) (negb (important b))
  else if negb (Bool.eqb (negb (urgent a)) (negb (urgent b)))
  then bool_lt (negb (urgent a)) (negb (urgent b))
  else date_ltb (due a) (due b).

(** The sort of the section [Sorted] for a comparison that cannot raise. *)
Section PureSort.
Context {B : Type} (ltb : B -> B -> bool).

Fixpoint insert_by (x : B) (l : list B) : list B :=
  match l with
  | [] => [x]
  | y :: l' => if ltb x y then x :: y :: l' else y :: insert_by x l'
  end.

Fixpoint sort_from (placed todo : list B) : list B :=
  match todo with
  | [] => placed
  | x :: todo' => sort_from (insert_by x placed) todo'
  end.

Definition sort_by (l : list B) : list B := sort_from [] l.

End PureSort.

Definition incomplete (t : Task) : bool := negb (completed t).

(** [sep.join(l)] *)
Fixpoint join (sep : ascii) (l : list string) : string :=
  match l with
  | [] => EmptyString
  | [p] => p
  | p :: l' => (p ++ String sep (join sep l'))%string
  end.

Fixpoint occurs (c : ascii) (s : string) : bool :=
  match s with
  | EmptyString => false
  | String c' s' => Ascii.eqb c' c || occurs c s'
  end.

Fixpoint all_space (s : string) : bool :=
  match s with
  | EmptyString => true
  | String c s' => is_space c && all_space s'
  end.

Fixpoint last_char (s : string) : option ascii :=
  match s with
  | EmptyString => None
  | String c EmptyString => Some c
  | String _ s' => last_char s'
  end.

(** No white space at either end. *)
Definition trimmed (s : string) : bool :=
  match s with
  | EmptyString => true
  | String c _ =>
      negb (is_space c) &&
      match last_char s with Some e => negb (is_space e) | None => true end
  end.

(** The wording "sentence-terminating punctuation", read as the three
    marks that end a sentence. *)
Definition sentence_end (c : ascii) : bool :=
  Ascii.eqb c "." || Ascii.eqb c "!" || Ascii.eqb c "?".

Fixpoint split_where (stop : ascii -> bool) (s : string) : list string :=
  match s with
  | EmptyString => [EmptyString]
  | String c s' =>
      if stop c then EmptyString :: split_where stop s'
      else match split_where stop s' with
           | [] => [String c EmptyString]
           | p :: ps => String c p :: ps
           end
  end.

(** The fragments the wording promises for a description. *)
Definition sentences_as_worded (d : string) : list string :=
  map strip (filter (fun s => negb (is_empty (strip s))) (split_where sentence_end d)).

(** The exceptions that validation raises; the readers of the files catch
    neither. *)
Definition uncaught (e : exn) : Prop := e = ValidationError \/ e = TypeError.

(** ** Sample stores *)

Definition empty_store : store := mkstore FMissing FMissing [].

(** Four tasks, one in each quadrant, added from the least to the most
    pressing, then a second important and urgent one that is due earlier
    and already completed. *)
Definition sample_tasks : list Task :=
  [ mkTask 1 "Tidy desk" "Sort papers. Empty bin." (mkdate 2025 3 1)
      false false [] false;
    mkTask 2 "Call back" "Return the call." (mkdate 2025 3 2)
      false true [] false;
    mkTask 3 "Plan trip" "Buy milk. Walk dog. Pay bills." (mkdate 2025 3 3)
      true false [] false;
    mkTask 4 "Fix outage" "Restart. Check logs." (mkdate 2025 3 4)
      true true [] false;
    mkTask 5 "Send report" "Write it. Send it." (mkdate 2025 1 15)
      true true [] true ].

Definition sample_records : list value :=
  map (fun t => json_roundtrip (model_dump t)) sample_tasks.

Definition sample_store : store :=
  mkstore (FJson (VList sample_records)) FMissing [].

(** The sample store without its completed task. *)
Definition pending_store : store :=
  mkstore (FJson (VList (firstn 4 sample_records))) FMissing [].

(** The active file exists but cannot be opened. *)
Definition unreadable_store : store := mkstore FUnreadable FMissing [].

(** The active file holds bytes that are not UTF-8. *)
Definition undecodable_store : store := mkstore FUndecodable FMissing [].

(** The completed sample task is to be archived, and the archive file
    holds bytes that are not UTF-8. *)
Definition undecodable_archive_store : store :=
  mkstore (FJson (VList sample_records)) FUndecodable [].

(** A record written by hand, with the word false in the place of the
    booleans [important] and [completed]: validated with that word read
    as the boolean, it is a task that is urgent, not important and not
    completed.  It is stored after a record as the tools write them, of a
    task that is important and not urgent. *)
Definition worded_record : value :=
  VDict [ ("id", VInt 1); ("title", VStr "Worded"); ("description", VStr "w");
          ("due", VStr "2025-01-01"); ("important", VStr "false");
          ("urgent", VBool true); ("subtasks", VList []);
          ("completed", VStr "false") ].

Definition plain_record : value :=
  VDict [ ("id", VInt 2); ("title", VStr "Plain"); ("description", VStr "p");
          ("due", VStr "2025-01-01"); ("important", VBool true);
          ("urgent", VBool false); ("subtasks", VList []);
          ("completed", VBool false) ].

Definition worded_task : Task :=
  mkTask 1 "Worded" "w" (mkdate 2025 1 1) false true [] false.

Definition plain_task : Task :=
  mkTask 2 "Plain" "p" (mkdate 2025 1 1) true false [] false.

Definition worded_store : store :=
  mkstore (FJson (VList [plain_record; worded_record])) FMissing [].

(** Two records in the same quadrant, one of them without [due]. *)
Definition dated_record : value :=
  VDict [ ("id", VInt 1); ("title", VStr "Dated"); ("description", VStr "d");
          ("due", VStr "2025-01-01"); ("important", VBool true);
          ("urgent", VBool true); ("subtasks", VList []);
          ("completed", VBool false) ].

Definition undated_record : value :=
  VDict [ ("id", VInt 2); ("title", VStr "Undated"); ("description", VStr "u");
          ("important", VBool true); ("urgent", VBool true);
          ("subtasks", VList []); ("completed", VBool false) ].

Definition undated_last_store : store :=
  mkstore (FJson (VList [dated_record; undated_record])) FMissing [].

Definition undated_first_store : store :=
  mkstore (FJson (VList [undated_record; dated_record])) FMissing [].





(** A description whose sentences end with other marks than the period. *)
Definition exclaim_store : store :=
  snd (add_task 1 "Greet" "Hi! Bye?" (mkdate 2025 1 1) true true None false
         empty_store).

(** Two tasks with the same id and different descriptions. *)
Definition twin_store : store :=
  snd (add_task 1 "Second" "C. D." (mkdate 2025 1 2) true true None false
    (snd (add_task 1 "First" "A. B." (mkdate 2025 1 1) true true None false
       empty_store))).

(** The record of the sample store that [decompose_task 3] meets. *)
Definition plan_fields : list (string * value) :=
  match nth 2 sample_records VNone with
  | VDict f => f
  | _ => []
  end.

(** ** Text of values ([str] and [repr])

    The f-strings of [explain_task] format a value with [str].  For a
    string that is the string itself; for a list or an object it is
    [repr], which quotes and escapes the strings inside. *)

Definition squote : ascii := ascii_of_N 39.
Definition dquote : ascii := ascii_of_N 34.
Definition backslash : ascii := ascii_of_N 92.

Definition hex_digit (n : N) : ascii :=
  if (n <? 10)%N then ascii_of_N (48 + n) else ascii_of_N (87 + n).

(** [str.isprintable] on one code point below 256. *)
Definition is_printable (n : N) : bool :=
  ((32 <=? n) && (n <? 127) || (161 <=? n) && negb (n =? 173))%N.

Definition hex_escape (n : N) : string :=
  String backslash (String "x"
    (String (hex_digit (n / 16)) (String (hex_digit (n mod 16)) EmptyString))).

(** One character of [repr(s)], [q] being the quote chosen for [s]. *)
Definition repr_char (q c : ascii) : string :=
  let n := N_of_ascii c in
  if Ascii.eqb c q || Ascii.eqb c backslash then String backslash (String c EmptyString)
  else if (n =? 9)%N then String backslash (String "t" EmptyString)
  else if (n =? 10)%N then String backslash (String "n" EmptyString)
  else if (n =? 13)%N then String backslash (String "r" EmptyString)
  else if is_printable n then String c EmptyString
  else hex_escape n.

Fixpoint repr_chars (q : ascii) (s : string) : string :=
  match s with
  | EmptyString => EmptyString
  | String c s' => (repr_char q c ++ repr_chars q s')%string
  end.

(** [repr(s)] for a string: single quotes, unless the string has a single
    quote and no double quote. *)
Definition repr_str (s : string) : string :=
  let q := if occurs squote s && negb (occurs dquote s) then dquote else squote in
  String q (repr_chars q s ++ String q EmptyString)%string.

(** [repr(v)] *)
Fixpoint py_repr (v : value) : string :=
  match v with
  | VNone => "None"
  | VBool b => if b then "True" else "False"
  | VInt n => str_of_int n
  | VStr s => repr_str s
  | VDate d =>
      ("datetime.date(" ++ str_of_int (year d) ++ ", " ++ str_of_int (month d)
         ++ ", " ++ str_of_int (day d) ++ ")")%string
  | VList l =>
      ("[" ++
       (fix items (l : list value) : string :=
          match l with
          | [] => EmptyString
          | [x] => py_repr x
          | x :: l' => (py_repr x ++ ", " ++ items l')%string
          end) l ++ "]")%string
  | VDict f =>
      ("{" ++
       (fix items (f : list (string * value)) : string :=
          match f with
          | [] => EmptyString
          | [(k, x)] => (repr_str k ++ ": " ++ py_repr x)%string
          | (k, x) :: f' => (repr_str k ++ ": " ++ py_repr x ++ ", " ++ items f')%string
          end) f ++ "}")%string
  end.

(** [str(v)], which is what [f"{v}"] inserts. *)
Definition py_str (v : value) : string :=
  match v with
  | VStr s => s
  | VDate d => isoformat d
  | _ => py_repr v
  end.

(** ** The explaining tool *)

(** [next((t for t in tasks if t.get("id") == task_id), None)] *)
Fixpoint first_with_id (task_id : Z) (tasks : list value) : result (option value) :=
  match tasks with
  | [] => Ok None
  | t :: rest =>
      let? i := dict_get t "id" VNone in
      if py_eq i (VInt task_id) then Ok (Some t) else first_with_id task_id rest
  end.

Definition explain_task (task_id : Z) : M string :=
  tasks <- _load_tasks ;;
  task <- lift (first_with_id task_id tasks) ;;
  match task with
  | None => ret ("No task found with id " ++ str_of_int task_id ++ ".")%string
  | Some task =>
      i <- lift (dict_get task "important" VNone) ;;
      let importance := if truthy i then "important" else "not important" in
      u <- lift (dict_get task "urgent" VNone) ;;
      let urgency := if truthy u then "urgent" else "not urgent" in
      due <- lift (dict_get task "due" VNone) ;;
      ti <- lift (dict_get task "title" VNone) ;;
      de <- lift (dict_get task "description" VNone) ;;
      ret ("Task '" ++ py_str ti ++ "' is " ++ importance ++ " and " ++ urgency
             ++ ". It is due on " ++ py_str due
             ++ ". Description: " ++ py_str de)%string
  end.

(** ** Notions used to state further properties *)

(** The fragments of a description. *)
Definition fragments (d : string) : list string :=
  map strip (filter (fun s => negb (is_empty (strip s))) (split "." d)).

Definition set_completed (t : Task) : Task :=
  mkTask (id t) (title t) (description t) (due t) (important t) (urgent t)
         (subtasks t) true.

Definition set_subtasks (l : list string) (t : Task) : Task :=
  mkTask (id t) (title t) (description t) (due t) (important t) (urgent t)
         l (completed t).

(** The first task with the id, changed by [g]; the others as they are. *)
Fixpoint update_first (task_id : Z) (g : Task -> Task) (ts : list Task) : list Task :=
  match ts with
  | [] => []
  | t :: ts' =>
      if (id t =? task_id)%Z then g t :: ts'
      else t :: update_first task_id g ts'
  end.

Definition has_task_id (task_id : Z) (t : Task) : bool := (id t =? task_id)%Z.

(** The sentence [explain_task] builds for a task. *)
Definition explanation (t : Task) : string :=
  ("Task '" ++ title t ++ "' is "
     ++ (if important t then "important" else "not important") ++ " and "
     ++ (if urgent t then "urgent" else "not urgent")
     ++ ". It is due on " ++ isoformat (due t)
     ++ ". Description: " ++ description t)%string.

(** Two tasks that the sort key does not tell apart. *)
Definition same_key (a b : Task) : bool :=
  Bool.eqb (important a) (important b) && Bool.eqb (urgent a) (urgent b)
  && date_eqb (due a) (due b).

Definition is_text (v : value) : bool :=
  match v with VStr _ => true | _ => false end.

(** The six fields a task must have. *)
Definition required_fields : list string :=
  ["id"; "title"; "description"; "due"; "important"; "urgent"].

(** An archive file that holds JSON other than a list. *)
Definition odd_archive_store : store :=
  mkstore (FJson (VList sample_records)) (FJson (VDict [])) [].

(** A number stored between two records. *)
Definition mixed_store : store :=
  mkstore (FJson (VList [dated_record; VInt 7; undated_record])) FMissing [].

(** A record whose description is a number. *)
Definition numbered_fields : list (string * value) :=
  [ ("id", VInt 8); ("title", VStr "Count"); ("description", VInt 42) ].

Definition numbered_store : store :=
  mkstore (FJson (VList [dated_record; VDict numbered_fields])) FMissing [].

(** The four pending sample tasks, stored in priority order. *)
Definition ordered_tasks : list Task := rev (firstn 4 sample_tasks).

Definition ordered_store : store :=
  mkstore (FJson (VList (map (fun t => json_roundtrip (model_dump t)) ordered_tasks)))
          FMissing [].

(** * Facts about strings and dates *)

Section DateFacts.
Local Open Scope Z_scope.

Lemma N_of_digit_char n : 0 <= n < 10 -> N_of_ascii (digit_char n) = (48 + Z.to_N n)%N.
Proof.
  intros H. unfold digit_char. apply N_ascii_embedding. lia.
Qed.

Lemma digit_char_compare a b :
  0 <= a < 10 -> 0 <= b < 10 ->
  Ascii.compare (digit_char a) (digit_char b) = (a ?= b).
Proof.
  intros Ha Hb. unfold Ascii.compare.
  rewrite !N_of_digit_char by assumption.
  rewrite <- N2Z.inj_compare, !N2Z.inj_add, !Z2N.id by lia.
  apply Z.add_compare_mono_l.
Qed.

Lemma compare_app s1 : forall s2 t1 t2,
  String.length s1 = String.length s2 ->
  String.compare (s1 ++ t1) (s2 ++ t2) =
  match String.compare s1 s2 with
  | Eq => String.compare t1 t2
  | c => c
  end.
Proof.
  induction s1 as [|c s1 IH]; intros [|c' s2] t1 t2 Hl; try discriminate.
  - reflexivity.
  - simpl in *. destruct (Ascii.compare c c'); auto.
Qed.

Lemma length_append s : forall t,
  String.length (s ++ t) = (String.length s + String.length t)%nat.
Proof.
  induction s as [|c s IH]; intros t; simpl; [reflexivity | now rewrite IH].
Qed.

Lemma zpad_length w : forall n, String.length (zpad w n) = w.
Proof.
  induction w as [|w IH]; intros n; simpl; [reflexivity|].
  rewrite length_append, IH. simpl. lia.
Qed.

Lemma zpad_compare w : forall a b,
  0 <= a < 10 ^ Z.of_nat w -> 0 <= b < 10 ^ Z.of_nat w ->
  String.compare (zpad w a) (zpad w b) = (a ?= b).
Proof.
  induction w as [|w IH]; intros a b Ha Hb.
  - simpl in *. assert (a = 0) by lia. assert (b = 0) by lia. now subst.
  - rewrite Nat2Z.inj_succ, Z.pow_succ_r in Ha, Hb by lia.
    simpl. rewrite compare_app by now rewrite !zpad_length.
    rewrite IH by (split; [apply Z.div_pos; lia | apply Z.div_lt_upper_bound; lia]).
    simpl.
    rewrite digit_char_compare by (apply Z.mod_pos_bound; lia).
    pose proof (Z.div_mod a 10 ltac:(lia)) as Ea.
    pose proof (Z.div_mod b 10 ltac:(lia)) as Eb.
    pose proof (Z.mod_pos_bound a 10 ltac:(lia)).
    pose proof (Z.mod_pos_bound b 10 ltac:(lia)).
    destruct (Z.compare_spec (a / 10) (b / 10));
      destruct (Z.compare_spec (a mod 10) (b mod 10));
      destruct (Z.compare_spec a b); try reflexivity; lia.
Qed.

Lemma date_valid_bounds d :
  date_valid d = true ->
  1 <= year d <= 9999 /\ 1 <= month d <= 12 /\ 1 <= day d <= 31.
Proof.
  unfold date_valid, days_in_month. intros H.
  repeat (apply andb_prop in H; destruct H as [H ?]).
  destruct (month d =? 2); [destruct (is_leap (year d))|];
    try destruct (_ || _); lia.
Qed.

Lemma isoformat_compare a b :
  date_valid a = true -> date_valid b = true ->
  String.compare (isoformat a) (isoformat b) = date_compare a b.
Proof.
  intros Ha Hb.
  apply date_valid_bounds in Ha, Hb.
  unfold isoformat, date_compare.
  rewrite compare_app by now rewrite !zpad_length.
  rewrite zpad_compare by (simpl; lia).
  destruct (year a ?= year b); try reflexivity.
  change (String.compare ("-" ++ ?x) ("-" ++ ?y)) with (String.compare x y).
  rewrite compare_app by now rewrite !zpad_length.
  rewrite zpad_compare by (simpl; lia).
  destruct (month a ?= month b); try reflexivity.
  change (String.compare ("-" ++ ?x) ("-" ++ ?y)) with (String.compare x y).
  apply zpad_compare; simpl; lia.
Qed.

Lemma string_eqb_compare s t :
  String.eqb s t = match String.compare s t with Eq => true | _ => false end.
Proof.
  destruct (String.eqb_spec s t) as [->|Hne].
  - assert (H : String.compare t t = Eq).
    { pose proof (String.compare_antisym t t) as E.
      destruct (String.compare t t); simpl in E; congruence. }
    now rewrite H.
  - destruct (String.compare s t) eqn:E; try reflexivity.
    apply String.compare_eq_iff in E. contradiction.
Qed.

Lemma isoformat_eqb a b :
  date_valid a = true -> date_valid b = true ->
  String.eqb (isoformat a) (isoformat b) = date_eqb a b.
Proof.
  intros. rewrite string_eqb_compare, isoformat_compare by assumption.
  reflexivity.
Qed.

Lemma isoformat_ltb a b :
  date_valid a = true -> date_valid b = true ->
  String.ltb (isoformat a) (isoformat b) = date_ltb a b.
Proof.
  intros. unfold String.ltb. rewrite isoformat_compare by assumption.
  reflexivity.
Qed.

Lemma digit_val_char n : 0 <= n < 10 -> digit_val (digit_char n) = Some n.
Proof.
  intros H. unfold digit_val. rewrite N_of_digit_char by assumption.
  replace ((48 <=? 48 + Z.to_N n)%N && (48 + Z.to_N n <=? 57)%N) with true
    by (symmetry; apply andb_true_intro; split; apply N.leb_le; lia).
  f_equal. lia.
Qed.

Lemma digit_char_val c n : digit_val c = Some n -> 0 <= n < 10 /\ digit_char n = c.
Proof.
  unfold digit_val. destruct (_ && _) eqn:E; [|discriminate].
  intros [= <-]. apply andb_prop in E. destruct E as [E1 E2].
  apply N.leb_le in E1, E2. split; [lia|].
  unfold digit_char.
  replace (48 + Z.to_N (Z.of_N (N_of_ascii c) - 48))%N with (N_of_ascii c) by lia.
  apply ascii_N_embedding.
Qed.

Lemma isoformat_chars y m d :
  isoformat (mkdate y m d) =
  String (digit_char (y / 10 / 10 / 10 mod 10))
    (String (digit_char (y / 10 / 10 mod 10))
      (String (digit_char (y / 10 mod 10))
        (String (digit_char (y mod 10))
          (String "-"
            (String (digit_char (m / 10 mod 10))
              (String (digit_char (m mod 10))
                (String "-"
                  (String (digit_char (d / 10 mod 10))
                    (String (digit_char (d mod 10)) EmptyString))))))))).
Proof. reflexivity. Qed.

Lemma fromisoformat_isoformat d :
  date_valid d = true -> date_fromisoformat (isoformat d) = Some d.
Proof.
  intros Hv. pose proof (date_valid_bounds d Hv) as (Hy & Hm & Hd).
  destruct d as [y m dd]. simpl in Hy, Hm, Hd.
  rewrite isoformat_chars.
  unfold date_fromisoformat.
  rewrite !digit_val_char by (apply Z.mod_pos_bound; lia).
  cbn [Ascii.eqb Bool.eqb andb].
  assert (Ey : 1000 * (y / 10 / 10 / 10 mod 10) + 100 * (y / 10 / 10 mod 10)
               + 10 * (y / 10 mod 10) + y mod 10 = y)
    by (Z.to_euclidean_division_equations; lia).
  assert (Em : 10 * (m / 10 mod 10) + m mod 10 = m)
    by (Z.to_euclidean_division_equations; lia).
  assert (Ed : 10 * (dd / 10 mod 10) + dd mod 10 = dd)
    by (Z.to_euclidean_division_equations; lia).
  rewrite Ey, Em, Ed, Hv. reflexivity.
Qed.

Lemma fromisoformat_inv s d :
  date_fromisoformat s = Some d -> date_valid d = true /\ isoformat d = s.
Proof.
  unfold date_fromisoformat.
  do 10 (destruct s as [|? s]; [discriminate|]).
  destruct s; [|discriminate].
  repeat match goal with
  | |- context [digit_val ?c] =>
      let E := fresh "E" in
      destruct (digit_val c) eqn:E; [apply digit_char_val in E|discriminate]
  end.
  match goal with
  | |- context [if ?c then _ else _] => destruct c eqn:Hc; [|discriminate]
  end.
  intros Hsome.
  pose proof (f_equal (fun o => match o with Some x => x | None => d end) Hsome) as Hd.
  cbv beta iota in Hd. subst d. clear Hsome.
  repeat (apply andb_prop in Hc; destruct Hc as [Hc ?]).
  repeat match goal with
  | H : Ascii.eqb _ _ = true |- _ => apply Ascii.eqb_eq in H; subst
  end.
  split; [assumption|].
  repeat match goal with
  | H : _ /\ digit_char _ = _ |- _ => destruct H as [? <-]
  end.
  rewrite isoformat_chars.
  repeat f_equal; Z.to_euclidean_division_equations; lia.
Qed.

End DateFacts.

(** * Facts about [split] and [strip] *)

Section SplitFacts.
Variable sep : ascii.

Lemma split_not_nil s : split sep s <> [].
Proof.
  destruct s as [|c s]; simpl; [discriminate|].
  destruct (Ascii.eqb c sep); [discriminate|].
  destruct (split sep s); discriminate.
Qed.

(** Joining the fragments with the separator gives the string back. *)
Lemma join_split s : join sep (split sep s) = s.
Proof.
  induction s as [|c s IH]; simpl; [reflexivity|].
  destruct (Ascii.eqb_spec c sep) as [->|Hne].
  - pose proof (split_not_nil s) as Hnil.
    simpl. destruct (split sep s) as [|p ps]; [contradiction|].
    simpl. f_equal. exact IH.
  - pose proof (split_not_nil s) as Hnil.
    destruct (split sep s) as [|p ps]; [contradiction|].
    destruct ps as [|q ps]; simpl in *; now rewrite IH.
Qed.

(** No fragment contains the separator. *)
Lemma split_no_sep s : Forall (fun p => occurs sep p = false) (split sep s).
Proof.
  induction s as [|c s IH]; simpl.
  - constructor; [reflexivity|constructor].
  - destruct (Ascii.eqb_spec c sep) as [->|Hne].
    + constructor; [reflexivity|exact IH].
    + destruct (split sep s) as [|p ps].
      * constructor; [|constructor]. simpl.
        apply Ascii.eqb_neq in Hne. now rewrite Hne.
      * inversion IH; subst. constructor; [|assumption].
        simpl. apply Ascii.eqb_neq in Hne. now rewrite Hne.
Qed.

End SplitFacts.

Lemma rstrip_empty_all_space s : is_empty (rstrip s) = true -> all_space s = true.
Proof.
  induction s as [|c s IH]; simpl; [reflexivity|].
  destruct (is_space c); simpl.
  - destruct (is_empty (rstrip s)); [auto | discriminate].
  - discriminate.
Qed.

Lemma rstrip_last s e :
  last_char (rstrip s) = Some e -> is_space e = false.
Proof.
  induction s as [|c s IH]; simpl; [discriminate|].
  destruct (rstrip s) as [|c' r] eqn:E.
  - destruct (is_space c) eqn:Hc; simpl; [discriminate|].
    now intros [= <-].
  - rewrite andb_false_r. simpl in *. exact IH.
Qed.

Lemma lstrip_head s :
  match lstrip s with
  | String c _ => is_space c = false
  | EmptyString => True
  end.
Proof.
  induction s as [|c s IH]; simpl; [exact I|].
  destruct (is_space c) eqn:Hc; [exact IH|exact Hc].
Qed.

Lemma rstrip_head c s :
  is_space c = false -> rstrip (String c s) = String c (rstrip s).
Proof. intros H. simpl. now rewrite H. Qed.

(** The result of [strip] has no white space at either end. *)
Lemma strip_trimmed s : trimmed (strip s) = true.
Proof.
  unfold strip. pose proof (lstrip_head s) as Hh.
  destruct (lstrip s) as [|c r]; [reflexivity|].
  pose proof (rstrip_last (String c r)) as Hl.
  rewrite rstrip_head in * by assumption.
  unfold trimmed. rewrite Hh.
  destruct (last_char (String c (rstrip r))) as [e|] eqn:El; [|reflexivity].
  now rewrite (Hl e eq_refl).
Qed.

Lemma lstrip_decompose s :
  exists l, s = (l ++ lstrip s)%string /\ all_space l = true.
Proof.
  induction s as [|c s (l & IH & Hl)]; simpl.
  - now exists EmptyString.
  - destruct (is_space c) eqn:Hc.
    + exists (String c l). simpl. rewrite Hc, Hl. split; [now f_equal|reflexivity].
    + now exists EmptyString.
Qed.

Lemma rstrip_decompose s :
  exists r, s = (rstrip s ++ r)%string /\ all_space r = true.
Proof.
  induction s as [|c s (r & IH & Hr)]; simpl.
  - now exists EmptyString.
  - destruct (is_space c && is_empty (rstrip s)) eqn:E.
    + apply andb_prop in E. destruct E as [Hc He].
      exists (String c s). simpl. rewrite Hc.
      split; [reflexivity|]. now apply rstrip_empty_all_space.
    + exists r. simpl. split; [now f_equal|assumption].
Qed.

(** [strip] only removes white space, and only at the two ends. *)
Lemma strip_decompose s :
  exists l r, s = (l ++ strip s ++ r)%string /\
              all_space l = true /\ all_space r = true.
Proof.
  destruct (lstrip_decompose s) as (l & El & Hl).
  destruct (rstrip_decompose (lstrip s)) as (r & Er & Hr).
  exists l, r. unfold strip. now rewrite <- Er, <- El.
Qed.

Lemma occurs_append c s : forall t,
  occurs c (s ++ t) = occurs c s || occurs c t.
Proof.
  induction s as [|c' s IH]; intros t; simpl; [reflexivity|].
  now rewrite IH, orb_assoc.
Qed.

Lemma occurs_strip c s : occurs c s = false -> occurs c (strip s) = false.
Proof.
  destruct (strip_decompose s) as (l & r & E & _ & _).
  intros H. rewrite E in H. rewrite !occurs_append in H.
  apply orb_false_elim in H. destruct H as [_ H].
  apply orb_false_elim in H. now destruct H.
Qed.

(** * Facts about values and records *)

Section ValueInduction.
Variable P : value -> Prop.
Hypothesis HNone : P VNone.
Hypothesis HBool : forall b, P (VBool b).
Hypothesis HInt : forall n, P (VInt n).
Hypothesis HStr : forall s, P (VStr s).
Hypothesis HDate : forall d, P (VDate d).
Hypothesis HList : forall l, Forall P l -> P (VList l).
Hypothesis HDict : forall f, Forall (fun kv => P (snd kv)) f -> P (VDict f).

Lemma value_nested_ind : forall v, P v.
Proof.
  fix IH 1. intros [ | b | n | s | d | l | f].
  - exact HNone.
  - apply HBool.
  - apply HInt.
  - apply HStr.
  - apply HDate.
  - apply HList. induction l as [|x l IHl]; constructor; [apply IH | exact IHl].
  - apply HDict. induction f as [|[k x] f IHf]; constructor; [apply IH | exact IHf].
Qed.

End ValueInduction.

Lemma map_id_Forall {A} (g : A -> A) l : Forall (fun x => g x = x) l -> map g l = l.
Proof. induction 1; simpl; congruence. Qed.

(** Writing a JSON value and reading it back gives the same value. *)
Lemma json_roundtrip_id : forall v, is_json v = true -> json_roundtrip v = v.
Proof.
  induction v as [ | | | | d | l IH | f IH] using value_nested_ind;
    simpl; intros H; try reflexivity; try discriminate.
  - f_equal. apply map_id_Forall.
    rewrite forallb_forall in H. rewrite Forall_forall in *. auto.
  - f_equal. apply map_id_Forall.
    rewrite forallb_forall in H. rewrite Forall_forall in *.
    intros [k x] Hin. simpl. f_equal. apply (IH _ Hin), (H _ Hin).
Qed.

(** What a write puts in a file is JSON. *)
Lemma is_json_roundtrip : forall v, is_json (json_roundtrip v) = true.
Proof.
  induction v as [ | | | | d | l IH | f IH] using value_nested_ind;
    simpl; try reflexivity.
  - rewrite forallb_forall. intros y Hy. apply in_map_iff in Hy.
    destruct Hy as (x & <- & Hx). rewrite Forall_forall in IH. auto.
  - rewrite forallb_forall. intros y Hy. apply in_map_iff in Hy.
    destruct Hy as (x & <- & Hx). rewrite Forall_forall in IH. simpl. auto.
Qed.

Lemma json_roundtrip_list l :
  forallb is_json l = true -> map json_roundtrip l = l.
Proof.
  intros H. apply map_id_Forall. rewrite forallb_forall in H.
  rewrite Forall_forall. intros x Hx. apply json_roundtrip_id; auto.
Qed.

Lemma is_json_lookup k f v :
  is_json (VDict f) = true -> lookup k f = Some v -> is_json v = true.
Proof.
  simpl. induction f as [|[k' w] f IH]; simpl; [discriminate|].
  intros H. apply andb_prop in H. destruct H as [Hw Hf].
  destruct (String.eqb k k'); [intros [= <-]; exact Hw | auto].
Qed.

Lemma is_json_assoc_set k v f :
  is_json v = true -> is_json (VDict f) = true ->
  is_json (VDict (assoc_set k v f)) = true.
Proof.
  simpl. intros Hv. induction f as [|[k' w] f IH]; simpl.
  - now rewrite Hv.
  - intros H. apply andb_prop in H. destruct H as [Hw Hf].
    destruct (String.eqb k k'); simpl.
    + now rewrite Hv, Hf.
    + now rewrite Hw, IH.
Qed.

Lemma lookup_assoc_set_same k v f : lookup k (assoc_set k v f) = Some v.
Proof.
  induction f as [|[k' w] f IH]; simpl.
  - now rewrite String.eqb_refl.
  - destruct (String.eqb k k') eqn:E; simpl; rewrite E; [reflexivity|exact IH].
Qed.

Lemma lookup_assoc_set_other k k' v f :
  String.eqb k' k = false -> lookup k' (assoc_set k v f) = lookup k' f.
Proof.
  intros Hne. induction f as [|[k0 w] f IH]; simpl.
  - now rewrite Hne.
  - destruct (String.eqb k k0) eqn:E; simpl.
    + apply String.eqb_eq in E. subst k0. now rewrite Hne.
    + now rewrite IH.
Qed.

Lemma dict_get_field r k d : is_dict r = true -> dict_get r k d = Ok (field k d r).
Proof. destruct r; simpl; intros H; try discriminate. reflexivity. Qed.

Lemma mapO_Forall2 {A B} (f : A -> option B) l : forall r,
  mapO f l = Some r <-> Forall2 (fun x y => f x = Some y) l r.
Proof.
  induction l as [|x l IH]; intros r; simpl.
  - split; [intros [= <-]; constructor | inversion 1; reflexivity].
  - split.
    + destruct (f x) as [y|] eqn:E; simpl; [|discriminate].
      destruct (mapO f l) as [ys|]; simpl; [|discriminate].
      intros [= <-]. constructor; [exact E | now apply IH].
    + inversion 1 as [|? y ? ys Hx Hl]; subst. rewrite Hx. simpl.
      apply IH in Hl. now rewrite Hl.
Qed.

Lemma exact_strs_map l : exact_strs (map VStr l) = Some l.
Proof.
  induction l as [|s l IH]; simpl; [reflexivity|]. now rewrite IH.
Qed.

Lemma exact_strs_inv l : forall ss, exact_strs l = Some ss -> l = map VStr ss.
Proof.
  induction l as [|x l IH]; simpl; intros ss H.
  - now injection H as <-.
  - destruct x; try discriminate.
    destruct (exact_strs l) as [ss'|]; [|discriminate].
    injection H as <-. simpl. now rewrite (IH _ eq_refl).
Qed.

(** * Validation

    From here on the coercions of the validating library are any. *)

Section Validated.
Context {lax : Coercions}.

Lemma want_str_list_map l : want_str_list (VList (map VStr l)) = Ok l.
Proof. unfold want_str_list. now rewrite exact_strs_map. Qed.

Lemma mapR_app {A B} (f : A -> result B) l1 : forall l2 r1 r2,
  mapR f l1 = Ok r1 -> mapR f l2 = Ok r2 -> mapR f (l1 ++ l2) = Ok (r1 ++ r2).
Proof.
  induction l1 as [|x l1 IH]; simpl; intros l2 r1 r2 H1 H2.
  - injection H1 as <-. exact H2.
  - destruct (f x) as [y|]; simpl in *; [|discriminate].
    destruct (mapR f l1) as [ys|] eqn:E; simpl in *; [|discriminate].
    injection H1 as <-. now rewrite (IH _ _ _ eq_refl H2).
Qed.

(** A task survives [model_dump], the write and [Task] validation. *)
Lemma validate_dumped t :
  date_valid (due t) = true ->
  Task_validate (json_roundtrip (model_dump t)) = Ok t.
Proof.
  intros Hd. destruct t as [i ti de du im ur su co]. simpl in Hd.
  unfold model_dump, json_roundtrip, Task_validate.
  cbn [map fst snd id title description due important urgent subtasks completed
       required lookup String.eqb Ascii.eqb Bool.eqb rbind want_int want_str
       want_bool want_date].
  rewrite (fromisoformat_isoformat _ Hd).
  fold json_roundtrip.
  replace (map json_roundtrip (map VStr su)) with (map VStr su)
    by (rewrite map_map; reflexivity).
  rewrite want_str_list_map. reflexivity.
Qed.

(** A record as the tools write them is validated to the task it holds,
    whatever the library coerces elsewhere. *)
Lemma exact_validate r t : exact_task r = Some t -> Task_validate r = Ok t.
Proof.
  destruct r as [ | | | | | | f]; try discriminate.
  unfold exact_task, Task_validate, required, obind. intros H.
  destruct (lookup "id" f) as [[]|]; try discriminate.
  destruct (lookup "title" f) as [[]|]; try discriminate.
  destruct (lookup "description" f) as [[]|]; try discriminate.
  destruct (lookup "due" f) as [[ | | | sd | | | ]|]; try discriminate.
  cbn [exact_int exact_str exact_day rbind want_int want_str want_date] in *.
  destruct (date_fromisoformat sd) as [d0|]; [|discriminate].
  destruct (lookup "important" f) as [[]|]; try discriminate.
  destruct (lookup "urgent" f) as [[]|]; try discriminate.
  cbn [exact_bool rbind want_bool] in *.
  destruct (lookup "subtasks" f) as [[ | | | | | l | ]|]; try discriminate;
    cbn [exact_list want_str_list] in *;
    try (destruct (exact_strs l) as [ss|]; [|discriminate]);
    cbn [rbind] in *;
    (destruct (lookup "completed" f) as [[]|]; try discriminate;
     cbn [exact_bool rbind want_bool] in *; now injection H as <-).
Qed.

Lemma mapO_exact_validate raw ts :
  mapO exact_task raw = Some ts -> mapR Task_validate raw = Ok ts.
Proof.
  revert ts. induction raw as [|r raw IH]; simpl; intros ts H.
  - now injection H as <-.
  - destruct (exact_task r) as [t|] eqn:E; simpl in H; [|discriminate].
    destruct (mapO exact_task raw) as [ts'|]; simpl in H; [|discriminate].
    injection H as <-. rewrite (exact_validate _ _ E). simpl.
    now rewrite (IH _ eq_refl).
Qed.

End Validated.

Ltac inv_ok H := injection H as H; subst.

(** What a record as the tools write them holds. *)
Lemma exact_shape r t :
  exact_task r = Some t ->
  is_dict r = true /\
  field "important" (VBool false) r = VBool (important t) /\
  field "urgent" (VBool false) r = VBool (urgent t) /\
  field "due" (VDate date_max) r = VStr (isoformat (due t)) /\
  date_valid (due t) = true /\
  truthy (field "completed" (VBool false) r) = completed t /\
  truthy (field "completed" VNone r) = completed t.
Proof.
  destruct r as [ | | | | | | f]; try discriminate.
  unfold exact_task, obind, field. intros H.
  destruct (lookup "id" f) as [[]|]; try discriminate.
  destruct (lookup "title" f) as [[]|]; try discriminate.
  destruct (lookup "description" f) as [[]|]; try discriminate.
  destruct (lookup "due" f) as [[ | | | sd | | | ]|]; try discriminate.
  cbn [exact_int exact_str exact_day] in H.
  destruct (date_fromisoformat sd) as [d0|] eqn:Eiso; [|discriminate].
  apply fromisoformat_inv in Eiso. destruct Eiso as [Hv <-].
  destruct (lookup "important" f) as [[]|]; try discriminate.
  destruct (lookup "urgent" f) as [[]|]; try discriminate.
  cbn [exact_bool] in H.
  destruct (match lookup "subtasks" f with Some v => exact_list v | None => Some [] end);
    [|discriminate].
  destruct (lookup "completed" f) as [[]|]; try discriminate;
    cbn [exact_bool] in H; inv_ok H; simpl; auto 10.
Qed.

Lemma exact_sort_key r t :
  exact_task r = Some t ->
  prioritise_sort_key r = Ok (task_key t) /\
  recommend_sort_key r = Ok (task_key t).
Proof.
  intros H. destruct (exact_shape r t H) as (Hd & Hi & Hu & Hdue & _).
  unfold prioritise_sort_key, recommend_sort_key.
  rewrite !dict_get_field by assumption. simpl.
  rewrite Hi, Hu, Hdue. split; reflexivity.
Qed.

(** * The priority order *)

Section OrderFacts.
Local Open Scope Z_scope.

Lemma date_ltb_spec a b : date_ltb a b = true <-> date_lt a b.
Proof.
  unfold date_ltb, date_compare, date_lt.
  destruct (Z.compare_spec (year a) (year b));
    destruct (Z.compare_spec (month a) (month b));
    destruct (Z.compare_spec (day a) (day b));
    split; intros; try discriminate; try reflexivity; lia.
Qed.

Lemma date_leb_spec a b : date_leb a b = true <-> ~ date_lt b a.
Proof.
  unfold date_leb, date_compare, date_lt.
  destruct (Z.compare_spec (year a) (year b));
    destruct (Z.compare_spec (month a) (month b));
    destruct (Z.compare_spec (day a) (day b));
    split; intros; try discriminate; try reflexivity; lia.
Qed.

Lemma date_eqb_ltb a b : date_eqb a b = true -> date_ltb a b = false.
Proof.
  unfold date_eqb, date_ltb. now destruct (date_compare a b).
Qed.

End OrderFacts.

Lemma task_ltb_spec a b :
  task_ltb a b = true <->
  (quadrant a < quadrant b)%nat \/
  (quadrant a = quadrant b /\ date_lt (due a) (due b)).
Proof.
  unfold task_ltb, quadrant. rewrite <- date_ltb_spec.
  destruct (important a), (urgent a), (important b), (urgent b); simpl;
    split; intros H; try discriminate; try lia; auto;
    destruct H as [H|[H1 H2]]; try lia; try discriminate; auto.
Qed.

Lemma task_ltb_false a b : task_ltb b a = false <-> eisenhower_le a b.
Proof.
  unfold eisenhower_le. rewrite date_leb_spec.
  pose proof (task_ltb_spec b a) as S.
  destruct (task_ltb b a).
  - split; [discriminate|]. intros H. exfalso.
    destruct S as [S _]. specialize (S eq_refl). unfold date_lt in *. lia.
  - split; [|reflexivity]. intros _.
    assert (N : ~ ((quadrant b < quadrant a)%nat \/
                   (quadrant b = quadrant a /\ date_lt (due b) (due a))))
      by (intros C; apply S in C; discriminate).
    unfold date_lt in *. lia.
Qed.

Lemma task_ltb_asym a b : task_ltb a b = true -> task_ltb b a = false.
Proof.
  intros H. apply task_ltb_spec in H.
  destruct (task_ltb b a) eqn:E; [|reflexivity].
  apply task_ltb_spec in E. unfold date_lt in *. lia.
Qed.

Lemma eisenhower_le_trans a b c :
  eisenhower_le a b -> eisenhower_le b c -> eisenhower_le a c.
Proof.
  unfold eisenhower_le. rewrite !date_leb_spec. unfold date_lt. lia.
Qed.

Lemma task_le_trans a b c :
  task_ltb b a = false -> task_ltb c b = false -> task_ltb c a = false.
Proof.
  rewrite !task_ltb_false. apply eisenhower_le_trans.
Qed.

(** [<] on the keys of two stored tasks is the priority order. *)
Lemma tuple_lt_task_key a b :
  date_valid (due a) = true -> date_valid (due b) = true ->
  tuple_lt (task_key a) (task_key b) = Ok (task_ltb a b).
Proof.
  intros Ha Hb. unfold tuple_lt, task_key, task_ltb.
  destruct (negb (Bool.eqb (negb (important a)) (negb (important b))));
    [reflexivity|].
  destruct (negb (Bool.eqb (negb (urgent a)) (negb (urgent b))));
    [reflexivity|].
  cbn [py_eq py_lt].
  rewrite isoformat_eqb, isoformat_ltb by assumption.
  destruct (date_eqb (due a) (due b)) eqn:E; [|reflexivity].
  now rewrite date_eqb_ltb.
Qed.

(** * Facts about the sort *)

Section PureSortFacts.
Context {B : Type} (ltb : B -> B -> bool).

Let le (a b : B) : Prop := ltb b a = false.

Lemma insert_by_perm x l : Permutation (x :: l) (insert_by ltb x l).
Proof.
  induction l as [|y l IH]; simpl; [reflexivity|].
  destruct (ltb x y); [reflexivity|].
  rewrite perm_swap. now constructor.
Qed.

Lemma sort_from_perm todo : forall placed,
  Permutation (placed ++ todo) (sort_from ltb placed todo).
Proof.
  induction todo as [|x todo IH]; intros placed; simpl.
  - now rewrite app_nil_r.
  - rewrite <- IH. rewrite <- insert_by_perm.
    symmetry. apply Permutation_middle.
Qed.

Lemma sort_by_perm l : Permutation l (sort_by ltb l).
Proof. apply (sort_from_perm l []). Qed.

Hypothesis ltb_asym : forall a b, ltb a b = true -> ltb b a = false.
Hypothesis le_trans : forall a b c, le a b -> le b c -> le a c.

Lemma insert_by_sorted x l :
  StronglySorted le l -> StronglySorted le (insert_by ltb x l).
Proof.
  induction 1 as [|y l Hs IH Hy]; simpl.
  - constructor; constructor.
  - destruct (ltb x y) eqn:E.
    + constructor; [now constructor|].
      constructor; [now apply ltb_asym|].
      rewrite Forall_forall in *. intros z Hz.
      apply (le_trans x y z); [now apply ltb_asym | auto].
    + constructor; [exact IH|].
      rewrite Forall_forall in *. intros z Hz.
      apply (Permutation_in _ (Permutation_sym (insert_by_perm x l))) in Hz.
      destruct Hz as [<-|Hz]; [exact E | auto].
Qed.

Lemma sort_from_sorted todo : forall placed,
  StronglySorted le placed -> StronglySorted le (sort_from ltb placed todo).
Proof.
  induction todo as [|x todo IH]; intros placed H; simpl; [exact H|].
  apply IH, insert_by_sorted, H.
Qed.

Lemma sort_by_sorted l : StronglySorted le (sort_by ltb l).
Proof. apply sort_from_sorted. constructor. Qed.

(** Stability: selecting items before or after the sort is the same. *)
Lemma filter_insert_by p x l :
  StronglySorted le l ->
  filter p (insert_by ltb x l) =
  if p x then insert_by ltb x (filter p l) else filter p l.
Proof.
  induction 1 as [|y l Hs IH Hy]; simpl.
  - now destruct (p x).
  - destruct (ltb x y) eqn:E; simpl.
    + destruct (p x) eqn:Px; [|reflexivity].
      destruct (p y); simpl; [now rewrite E|].
      clear IH. induction l as [|z l IHl]; simpl; [reflexivity|].
      inversion Hs; subst. inversion Hy; subst.
      destruct (p z); simpl.
      * assert (Hxz : ltb x z = true).
        { destruct (ltb x z) eqn:Exz; [reflexivity|].
          match goal with
          | Hyz : le y z |- _ => pose proof (le_trans y z x Hyz Exz) as C
          end.
          unfold le in C. congruence. }
        now rewrite Hxz.
      * apply IHl; assumption.
    + rewrite IH. destruct (p x), (p y); simpl; try reflexivity.
      now rewrite E.
Qed.

Lemma filter_sort_from p todo : forall placed,
  StronglySorted le placed ->
  filter p (sort_from ltb placed todo) =
  sort_from ltb (filter p placed) (filter p todo).
Proof.
  induction todo as [|x todo IH]; intros placed H; simpl; [reflexivity|].
  rewrite IH by now apply insert_by_sorted.
  rewrite filter_insert_by by assumption.
  now destruct (p x).
Qed.

Lemma filter_sort_by p l :
  filter p (sort_by ltb l) = sort_by ltb (filter p l).
Proof. apply filter_sort_from. constructor. Qed.

End PureSortFacts.

(** The sort that can raise agrees with the pure one on items whose
    comparisons are known. *)
Section SortSimulation.
Context {K A B : Type} (lt : K -> K -> result bool) (ltb : B -> B -> bool).
Context (rel : K * A -> B -> Prop).
Hypothesis lt_rel : forall x y bx by_,
  rel x bx -> rel y by_ -> lt (fst x) (fst y) = Ok (ltb bx by_).

Lemma insertR_sim x bx l bl :
  rel x bx -> Forall2 rel l bl ->
  exists l', insertR lt x l = Ok l' /\ Forall2 rel l' (insert_by ltb bx bl).
Proof.
  intros Hx. induction 1 as [|y b l bl Hy Hl IH]; simpl.
  - eexists; split; [reflexivity|]. now repeat constructor.
  - rewrite (lt_rel _ _ _ _ Hx Hy). simpl.
    destruct (ltb bx b).
    + eexists; split; [reflexivity|]. now repeat constructor.
    + destruct IH as (l' & -> & Hl'). simpl.
      eexists; split; [reflexivity|]. now constructor.
Qed.

Lemma sort_loop_sim todo : forall bt placed bp,
  Forall2 rel placed bp -> Forall2 rel todo bt ->
  exists out, sort_loop lt placed todo = Ok out /\
              Forall2 rel out (sort_from ltb bp bt).
Proof.
  induction todo as [|x todo IH]; intros bt placed bp Hp Ht;
    inversion Ht; subst; simpl.
  - now exists placed.
  - match goal with
    | Hx : rel x _ |- _ =>
        destruct (insertR_sim _ _ _ _ Hx Hp) as (placed' & -> & Hp')
    end.
    simpl. now apply IH.
Qed.

End SortSimulation.

(** * Stored records and the sort *)

Lemma mapR_Forall2 {A B} (f : A -> result B) l : forall r,
  mapR f l = Ok r <-> Forall2 (fun x y => f x = Ok y) l r.
Proof.
  induction l as [|x l IH]; intros r; simpl.
  - split; [intros [= <-]; constructor | inversion 1; reflexivity].
  - split.
    + destruct (f x) as [y|] eqn:E; simpl; [|discriminate].
      destruct (mapR f l) as [ys|]; simpl; [|discriminate].
      intros [= <-]. constructor; [exact E | now apply IH].
    + inversion 1 as [|? y ? ys Hx Hl]; subst. rewrite Hx. simpl.
      apply IH in Hl. now rewrite Hl.
Qed.

Lemma stored_as_of_mapO raw : forall ts,
  mapO exact_task raw = Some ts -> forallb is_json raw = true ->
  Forall2 stored_as raw ts.
Proof.
  intros ts H. apply mapO_Forall2 in H.
  induction H as [|r t raw ts Hr Hl IH]; simpl; intros Hj; constructor.
  - apply andb_prop in Hj. now split.
  - apply IH. now apply andb_prop in Hj.
Qed.

Lemma stored_as_mapO raw ts :
  Forall2 stored_as raw ts -> mapO exact_task raw = Some ts.
Proof.
  intros H. apply mapO_Forall2.
  induction H as [|r t raw ts [Hr _] Hl IH]; constructor; assumption.
Qed.

Lemma mapR_stored_as {lax : Coercions} raw ts :
  Forall2 stored_as raw ts -> mapR Task_validate raw = Ok ts.
Proof. intros H. apply mapO_exact_validate. now apply stored_as_mapO. Qed.

Lemma Forall2_firstn {A B} (R : A -> B -> Prop) n : forall l m,
  Forall2 R l m -> Forall2 R (firstn n l) (firstn n m).
Proof.
  induction n as [|n IH]; intros l m H; simpl; [constructor|].
  destruct H; constructor; auto.
Qed.

Lemma in_firstn {A} n (l : list A) x : In x (firstn n l) -> In x l.
Proof.
  intros H. rewrite <- (firstn_skipn n l). apply in_or_app. now left.
Qed.

Section KeyedSort.
Variable keyf : value -> result key.
Hypothesis keyf_stored : forall r t, stored_as r t -> keyf r = Ok (task_key t).

Let rel (kr : key * value) (t : Task) : Prop :=
  stored_as (snd kr) t /\ fst kr = task_key t.

Lemma keyed_stored raw ts :
  Forall2 stored_as raw ts ->
  exists keyed,
    mapR (fun t => let? k := keyf t in Ok (k, t)) raw = Ok keyed /\
    Forall2 rel keyed ts /\ map snd keyed = raw.
Proof.
  induction 1 as [|r t raw ts Hr Hl (keyed & E & Hk & Hs)]; simpl.
  - exists []. repeat split; constructor.
  - rewrite (keyf_stored _ _ Hr). simpl. rewrite E. simpl.
    eexists; repeat split; [constructor; [now split | exact Hk] |].
    simpl. now rewrite Hs.
Qed.

Lemma rel_tuple_lt x y a b :
  rel x a -> rel y b -> tuple_lt (fst x) (fst y) = Ok (task_ltb a b).
Proof.
  intros [[Ha Ja] ->] [[Hb Jb] ->].
  apply tuple_lt_task_key.
  - now apply (exact_shape _ _ Ha).
  - now apply (exact_shape _ _ Hb).
Qed.

Lemma rel_stored out ts :
  Forall2 rel out ts -> Forall2 stored_as (map snd out) ts.
Proof.
  induction 1 as [|x t out ts [Hx _] _ IH]; simpl; constructor; assumption.
Qed.

(** Sorting stored records by their key sorts the tasks they stand for. *)
Lemma sorted_stored raw ts :
  Forall2 stored_as raw ts ->
  exists out,
    sorted tuple_lt raw keyf = Ok out /\
    Forall2 stored_as out (sort_by task_ltb ts).
Proof.
  intros H. destruct (keyed_stored raw ts H) as (keyed & E & Hk & _).
  destruct (sort_loop_sim tuple_lt task_ltb rel rel_tuple_lt keyed ts [] []
              (Forall2_nil _) Hk) as (out & Es & Ho).
  unfold sorted. rewrite E. simpl. rewrite Es. simpl.
  eexists; split; [reflexivity|].
  apply rel_stored. exact Ho.
Qed.

End KeyedSort.

Lemma filterR_stored raw ts :
  Forall2 stored_as raw ts ->
  exists raw',
    filterR (fun t => let? c := dict_get t "completed" (VBool false) in
                      Ok (negb (truthy c))) raw = Ok raw' /\
    Forall2 stored_as raw' (filter incomplete ts).
Proof.
  induction 1 as [|r t raw ts Hr Hl (raw' & E & IH)]; simpl.
  - exists []. split; [reflexivity|constructor].
  - destruct Hr as [Hv Hj].
    destruct (exact_shape _ _ Hv) as (Hd & _ & _ & _ & _ & Hc & _).
    rewrite dict_get_field by assumption. simpl. rewrite E. simpl.
    rewrite Hc. unfold incomplete at 1.
    destruct (completed t); simpl; eexists; split; try reflexivity; auto.
    constructor; [now split|assumption].
Qed.

Lemma StronglySorted_weaken {A} (R R' : A -> A -> Prop) l :
  (forall a b, R a b -> R' a b) -> StronglySorted R l -> StronglySorted R' l.
Proof.
  intros HR. induction 1 as [|x l Hs IH Hx]; constructor; [exact IH|].
  rewrite Forall_forall in *. auto.
Qed.

Lemma sort_by_eisenhower ts :
  StronglySorted eisenhower_le (sort_by task_ltb ts).
Proof.
  apply StronglySorted_weaken with (R := fun a b => task_ltb b a = false).
  - intros a b. apply task_ltb_false.
  - apply sort_by_sorted; [apply task_ltb_asym|].
    intros a b c. apply task_le_trans.
Qed.

(** * Running the tools *)

Lemma load_tasks_run st : _load_tasks st = (load_outcome (active st), st).
Proof.
  destruct st as [[ | e | v] ar w]; try reflexivity.
  - destruct e; reflexivity.
  - destruct v; reflexivity.
Qed.

Lemma load_outcome_json f l :
  file_ok f = true -> load_outcome f = Ok l -> forallb is_json l = true.
Proof.
  destruct f as [ | e | v]; simpl; try (intros _ [= <-]; reflexivity).
  - destruct e; try discriminate; intros _ [= <-]; reflexivity.
  - destruct v; simpl; try (intros _ [= <-]; reflexivity).
    now intros H [= <-].
Qed.

Lemma store_ok_active st : store_ok st = true -> file_ok (active st) = true.
Proof. unfold store_ok. intros H. now apply andb_prop in H. Qed.

Lemma store_ok_archive st : store_ok st = true -> file_ok (archive st) = true.
Proof. unfold store_ok. intros H. now apply andb_prop in H. Qed.

Lemma typed_tasks_run st :
  typed_tasks st =
  match load_outcome (active st) with
  | Ok raw => mapO exact_task raw
  | Raise _ => None
  end.
Proof. unfold typed_tasks. now rewrite load_tasks_run. Qed.

Lemma typed_tasks_inv st ts :
  store_ok st = true -> typed_tasks st = Some ts ->
  exists raw, load_outcome (active st) = Ok raw /\ Forall2 stored_as raw ts.
Proof.
  intros Hok. rewrite typed_tasks_run.
  destruct (load_outcome (active st)) as [raw|] eqn:E; [|discriminate].
  intros H. exists raw. split; [reflexivity|].
  apply stored_as_of_mapO; [exact H|].
  eapply load_outcome_json; [apply store_ok_active|]; eassumption.
Qed.

Lemma typed_tasks_stored st raw ts :
  _load_tasks st = (Ok raw, st) -> Forall2 stored_as raw ts ->
  typed_tasks st = Some ts.
Proof.
  intros Hl Hs. unfold typed_tasks. rewrite Hl. simpl.
  now apply stored_as_mapO.
Qed.

Lemma prioritise_key_stored r t :
  stored_as r t -> prioritise_sort_key r = Ok (task_key t).
Proof. intros [H J]. now apply exact_sort_key. Qed.

Lemma recommend_key_stored r t :
  stored_as r t -> recommend_sort_key r = Ok (task_key t).
Proof. intros [H J]. now apply exact_sort_key. Qed.

Section OrderingTools.
Context {lax : Coercions}.

(** Records as the tools write them are listed as the tasks they hold. *)
Lemma typed_tasks_list st ts :
  typed_tasks st = Some ts -> list_tasks st = (Ok ts, st).
Proof.
  rewrite typed_tasks_run. unfold list_tasks, bind, lift.
  rewrite load_tasks_run.
  destruct (load_outcome (active st)) as [raw|]; [|discriminate].
  intros H. now rewrite (mapO_exact_validate _ _ H).
Qed.

Lemma prioritise_tasks_run st ts :
  store_ok st = true -> typed_tasks st = Some ts ->
  prioritise_tasks st = (Ok (sort_by task_ltb ts), st).
Proof.
  intros Hok Hl. destruct (typed_tasks_inv st ts Hok Hl) as (raw & E & Hs).
  destruct (sorted_stored _ prioritise_key_stored raw ts Hs) as (out & Eo & Ho).
  unfold prioritise_tasks, bind, lift. rewrite load_tasks_run, E, Eo.
  now rewrite (mapR_stored_as _ _ Ho).
Qed.

Lemma recommend_tasks_run today st ts :
  store_ok st = true -> typed_tasks st = Some ts ->
  recommend_tasks_for_today today st =
  (Ok (firstn 5 (sort_by task_ltb (filter incomplete ts))), st).
Proof.
  intros Hok Hl. destruct (typed_tasks_inv st ts Hok Hl) as (raw & E & Hs).
  destruct (filterR_stored raw ts Hs) as (cand & Ec & Hc).
  destruct (sorted_stored _ recommend_key_stored cand _ Hc) as (out & Eo & Ho).
  unfold recommend_tasks_for_today, bind, lift.
  rewrite load_tasks_run, E, Ec, Eo.
  now rewrite (mapR_stored_as _ _ (Forall2_firstn _ 5 _ _ Ho)).
Qed.

(** * The ordering tools *)

(** C1, as amended.  When every stored record holds its fields in their
    own JSON types, as the tools write them, then whatever the validating
    library coerces elsewhere [list_tasks] lists the tasks these records
    hold and [prioritise_tasks] returns these tasks, each exactly once,
    in an order where a task of an earlier quadrant (important and
    urgent, important only, urgent only, neither) stands before every
    task of a later one, and where within a quadrant due dates never
    decrease. *)
Theorem prioritise_tasks_eisenhower st ts :
  store_ok st = true ->
  typed_tasks st = Some ts ->
  exists out,
    list_tasks st = (Ok ts, st) /\
    prioritise_tasks st = (Ok out, st) /\
    Permutation ts out /\
    StronglySorted eisenhower_le out.
Proof.
  intros Hok Hl. exists (sort_by task_ltb ts). split; [|split; [|split]].
  - now apply typed_tasks_list.
  - now apply prioritise_tasks_run.
  - apply sort_by_perm.
  - apply sort_by_eisenhower.
Qed.

(** C3, as amended.  When every stored record holds its fields in their
    own JSON types, as the tools write them, [recommend_tasks_for_today]
    returns, whatever the day, at most five tasks, none of them
    completed: the first five incomplete tasks of the order that
    [prioritise_tasks] returns, which holds every listed task once, a
    task of an earlier quadrant before every task of a later one and due
    dates never decreasing within a quadrant. *)
Theorem recommend_top_five_incomplete st ts today :
  store_ok st = true ->
  typed_tasks st = Some ts ->
  exists out prio,
    list_tasks st = (Ok ts, st) /\
    recommend_tasks_for_today today st = (Ok out, st) /\
    prioritise_tasks st = (Ok prio, st) /\
    Permutation ts prio /\
    StronglySorted eisenhower_le prio /\
    out = firstn 5 (filter incomplete prio) /\
    (length out <= 5)%nat /\
    Forall (fun t => completed t = false) out.
Proof.
  intros Hok Hl.
  exists (firstn 5 (sort_by task_ltb (filter incomplete ts))), (sort_by task_ltb ts).
  split; [now apply typed_tasks_list|].
  split; [now apply recommend_tasks_run|].
  split; [now apply prioritise_tasks_run|].
  split; [apply sort_by_perm|].
  split; [apply sort_by_eisenhower|].
  split; [|split].
  - f_equal. symmetry. apply filter_sort_by.
    + apply task_ltb_asym.
    + intros a b c. apply task_le_trans.
  - apply firstn_le_length.
  - rewrite Forall_forall. intros t Ht. apply in_firstn in Ht.
    apply (Permutation_in _ (Permutation_sym (sort_by_perm _ _))) in Ht.
    apply filter_In in Ht. destruct Ht as [_ Ht].
    unfold incomplete in Ht. now destruct (completed t).
Qed.

End OrderingTools.

(** * Archiving, marking and decomposing *)

Lemma forallb_filter {A} (p q : A -> bool) l :
  forallb p l = true -> forallb p (filter q l) = true.
Proof.
  induction l as [|x l IH]; simpl; [reflexivity|].
  intros H. apply andb_prop in H. destruct H as [Hx Hl].
  destruct (q x); simpl; [rewrite Hx|]; auto.
Qed.


Lemma filterR_dicts (p : value -> bool) k d tasks :
  forallb is_dict tasks = true ->
  filterR (fun t => let? c := dict_get t k d in Ok (p c)) tasks =
  Ok (filter (fun r => p (field k d r)) tasks).
Proof.
  induction tasks as [|r tasks IH]; simpl; [reflexivity|].
  intros H. apply andb_prop in H. destruct H as [Hr Hl].
  rewrite dict_get_field by assumption. simpl. now rewrite IH.
Qed.

Lemma filter_none_all {A} (p : A -> bool) l :
  filter p l = [] -> filter (fun x => negb (p x)) l = l.
Proof.
  induction l as [|x l IH]; simpl; [reflexivity|].
  destruct (p x); simpl; [discriminate|]. intros H. now rewrite IH.
Qed.

Lemma load_tasks_inv st tasks :
  _load_tasks st = (Ok tasks, st) -> load_outcome (active st) = Ok tasks.
Proof. rewrite load_tasks_run. now intros [= ->]. Qed.

Lemma archive_collection_json f l :
  file_ok f = true -> archive_collection f = Some l -> forallb is_json l = true.
Proof.
  destruct f as [ | e | v]; simpl; try (intros _ [= <-]; reflexivity).
  - destruct e; try discriminate; intros _ [= <-]; reflexivity.
  - destruct v; simpl; try discriminate. now intros H [= <-].
Qed.






Lemma existsb_false_filter {A} (p : A -> bool) l :
  existsb p l = false -> filter p l = [].
Proof.
  induction l as [|x l IH]; simpl; [reflexivity|].
  intros H. apply orb_false_elim in H. destruct H as [-> H]. auto.
Qed.

Lemma archive_nothing_run st tasks :
  _load_tasks st = (Ok tasks, st) ->
  forallb is_dict tasks = true ->
  existsb is_completed tasks = false ->
  archive_completed_tasks st = (Ok "No completed tasks to archive.", st).
Proof.
  intros Hload Hd Hc.
  unfold archive_completed_tasks, bind, lift. rewrite Hload.
  rewrite (filterR_dicts truthy) by assumption.
  rewrite (filterR_dicts (fun c => negb (truthy c))) by assumption.
  change (fun r => truthy (field "completed" VNone r)) with is_completed.
  now rewrite (existsb_false_filter _ _ Hc).
Qed.


Lemma mark_loop_miss task_id rest : forall seen st,
  forallb is_dict rest = true ->
  existsb (has_id task_id) rest = false ->
  mark_loop task_id seen rest st =
  (Ok ("Task " ++ str_of_int task_id ++ " not found.")%string, st).
Proof.
  induction rest as [|t rest IH]; intros seen st Hd Hn; simpl; [reflexivity|].
  simpl in Hd, Hn. apply andb_prop in Hd. destruct Hd as [Ht Hd].
  apply orb_false_elim in Hn. destruct Hn as [Hi Hn].
  unfold bind, lift. rewrite dict_get_field by assumption.
  unfold has_id in Hi. rewrite Hi. now apply IH.
Qed.

(** C4.  When no stored record has the given id, [mark_task_completed]
    returns the not-found message, raises nothing and performs no write:
    the store and its log of writes are the ones before. *)
Theorem mark_task_completed_not_found st tasks task_id :
  _load_tasks st = (Ok tasks, st) ->
  forallb is_dict tasks = true ->
  existsb (has_id task_id) tasks = false ->
  mark_task_completed task_id st =
  (Ok ("Task " ++ str_of_int task_id ++ " not found.")%string, st).
Proof.
  intros Hload Hd Hn. unfold mark_task_completed, bind.
  rewrite Hload. now apply mark_loop_miss.
Qed.

Lemma decompose_loop_hit task_id f post d : forall pre seen st,
  forallb is_dict pre = true ->
  existsb (has_id task_id) pre = false ->
  has_id task_id (VDict f) = true ->
  field "description" (VStr EmptyString) (VDict f) = VStr d ->
  decompose_loop task_id seen (pre ++ VDict f :: post) st =
  (let parts :=
     map strip (filter (fun s => negb (is_empty (strip s))) (split "." d)) in
   (Ok parts,
    put_file DATA_PATH
      (FJson (json_roundtrip
         (VList ((seen ++ pre) ++
                 VDict (assoc_set "subtasks" (VList (map VStr parts)) f) :: post))))
      st)).
Proof.
  induction pre as [|t pre IH]; intros seen st Hd Hn Hi Hdesc.
  - simpl. unfold bind, lift. simpl dict_get.
    unfold has_id in Hi. simpl field in Hi. rewrite Hi.
    simpl field in Hdesc. rewrite Hdesc. simpl sentence_parts. cbv iota beta.
    simpl dict_setitem. cbv iota beta.
    unfold _save_tasks, json_dump, ret. now rewrite app_nil_r.
  - simpl in Hd, Hn. apply andb_prop in Hd. destruct Hd as [Ht Hd].
    apply orb_false_elim in Hn. destruct Hn as [Hti Hn].
    simpl. unfold bind, lift. rewrite dict_get_field by assumption.
    unfold has_id in Hti. rewrite Hti.
    rewrite (IH (seen ++ [t]) st Hd Hn Hi Hdesc).
    now rewrite <- app_assoc.
Qed.

Lemma map_filter_comm {A B} (f : A -> B) (p : B -> bool) l :
  map f (filter (fun x => p (f x)) l) = filter p (map f l).
Proof.
  induction l as [|x l IH]; simpl; [reflexivity|].
  destruct (p (f x)); simpl; now rewrite IH.
Qed.

Lemma fragments_clean d :
  Forall (fun p => is_empty p = false /\ trimmed p = true /\ occurs "." p = false)
    (map strip (filter (fun s => negb (is_empty (strip s))) (split "." d))).
Proof.
  rewrite Forall_forall. intros p Hp. apply in_map_iff in Hp.
  destruct Hp as (s & <- & Hs). apply filter_In in Hs. destruct Hs as [Hin Hne].
  split; [now destruct (is_empty (strip s))|].
  split; [apply strip_trimmed|].
  apply occurs_strip.
  pose proof (split_no_sep "." d) as Hall. rewrite Forall_forall in Hall. auto.
Qed.

(** C5, as amended.  For the first stored record whose id matches,
    [decompose_task] cuts the description at every period, trims each
    piece and drops the empty ones; the fragments so obtained (not empty,
    trimmed, without a period) replace the record's [subtasks], every
    other field and record stays, the collection is saved, and the
    fragments are returned.  The description
    "Buy milk. Walk dog. Pay bills." gives "Buy milk", "Walk dog",
    "Pay bills". *)
Theorem decompose_task_on_periods st pre f post task_id d :
  store_ok st = true ->
  _load_tasks st = (Ok (pre ++ VDict f :: post), st) ->
  forallb is_dict pre = true ->
  existsb (has_id task_id) pre = false ->
  has_id task_id (VDict f) = true ->
  field "description" (VStr EmptyString) (VDict f) = VStr d ->
  exists parts st',
    decompose_task task_id st = (Ok parts, st') /\
    (exists segs,
       join "." segs = d /\
       Forall (fun s => occurs "." s = false) segs /\
       parts = filter (fun p => negb (is_empty p)) (map strip segs)) /\
    Forall (fun p => is_empty p = false /\ trimmed p = true /\
                     occurs "." p = false) parts /\
    _load_tasks st' =
      (Ok (pre ++ VDict (assoc_set "subtasks" (VList (map VStr parts)) f) :: post),
       st') /\
    lookup "subtasks" (assoc_set "subtasks" (VList (map VStr parts)) f) =
      Some (VList (map VStr parts)) /\
    (forall k, String.eqb k "subtasks" = false ->
       lookup k (assoc_set "subtasks" (VList (map VStr parts)) f) = lookup k f) /\
    archive st' = archive st /\
    (d = "Buy milk. Walk dog. Pay bills." ->
     parts = ["Buy milk"; "Walk dog"; "Pay bills"]).
Proof.
  intros Hok Hload Hd Hn Hi Hdesc.
  pose proof (load_tasks_inv _ _ Hload) as Eload.
  pose proof (load_outcome_json _ _ (store_ok_active _ Hok) Eload) as Jt.
  set (parts := map strip (filter (fun s => negb (is_empty (strip s))) (split "." d))).
  exists parts. eexists. split.
  { unfold decompose_task, bind. rewrite Hload.
    apply (decompose_loop_hit task_id f post d pre []); assumption. }
  split.
  { exists (split "." d). split; [apply join_split|].
    split; [apply split_no_sep|]. subst parts.
    apply (map_filter_comm strip (fun p => negb (is_empty p))). }
  split; [apply fragments_clean|].
  split.
  { rewrite load_tasks_run. simpl app. cbv zeta. fold parts.
    destruct st as [act ar w]. simpl active. simpl load_outcome.
    f_equal. f_equal. apply json_roundtrip_list.
    rewrite forallb_app in Jt. apply andb_prop in Jt. destruct Jt as [Jp Jr].
    simpl forallb in Jr. apply andb_prop in Jr. destruct Jr as [Jf Jq].
    rewrite forallb_app, Jp. simpl forallb. rewrite Jq, andb_true_r.
    apply is_json_assoc_set; [|exact Jf].
    simpl. rewrite forallb_forall. intros x Hx. apply in_map_iff in Hx.
    now destruct Hx as (s & <- & _). }
  split; [apply lookup_assoc_set_same|].
  split; [intros k Hk; now apply lookup_assoc_set_other|].
  split; [now destruct st|].
  intros ->. reflexivity.
Qed.

(** * Adding and loading *)

Create HintDb readonly.

Section AddingAndLoading.
Context {lax : Coercions}.

(** C9.  When every stored record is a task, a task passed to [add_task]
    is returned as given, and [list_tasks] right after lists the previous
    tasks followed by this very task: all eight fields, the due date
    included, come back from the file as they were given.  This holds
    whatever the validating library coerces. *)
Theorem add_task_then_list st ts i ti de du im ur su co :
  store_ok st = true ->
  list_tasks st = (Ok ts, st) ->
  date_valid du = true ->
  exists st',
    add_task i ti de du im ur su co st =
      (Ok (mkTask i ti de du im ur (match su with None => [] | Some l => l end) co),
       st') /\
    list_tasks st' =
      (Ok (ts ++ [mkTask i ti de du im ur
                    (match su with None => [] | Some l => l end) co]), st') /\
    store_ok st' = true.
Proof.
  intros Hok Hl Hdu.
  unfold list_tasks, bind, lift in Hl. rewrite load_tasks_run in Hl.
  destruct (load_outcome (active st)) as [raw|] eqn:E; [|discriminate].
  injection Hl as Hs.
  pose proof (load_outcome_json _ _ (store_ok_active _ Hok) E) as Jt.
  set (t := mkTask i ti de du im ur (match su with None => [] | Some l => l end) co).
  eexists. split.
  { unfold add_task, bind, _save_tasks, json_dump, ret.
    rewrite load_tasks_run, E. reflexivity. }
  split.
  - unfold list_tasks, bind, lift. rewrite load_tasks_run.
    destruct st as [act ar w]. simpl active. simpl load_outcome.
    rewrite map_app, (json_roundtrip_list _ Jt).
    rewrite (mapR_app Task_validate raw _ ts [t]); [reflexivity| |].
    + exact Hs.
    + change (mapR Task_validate [json_roundtrip (model_dump t)] = Ok [t]).
      cbn [mapR]. now rewrite (validate_dumped t Hdu).
  - destruct st as [act ar w]. unfold store_ok in *. simpl in *.
    apply andb_prop in Hok. destruct Hok as [_ Har]. rewrite Har, andb_true_r.
    apply (is_json_roundtrip (VList _)).
Qed.

Lemma mapR_raises {A B} (f : A -> result B) (P : exn -> Prop) l e :
  (forall x e, f x = Raise e -> P e) -> mapR f l = Raise e -> P e.
Proof.
  intros Hf. induction l as [|x l IH]; simpl; [discriminate|].
  destruct (f x) as [y|e'] eqn:E; simpl.
  - destruct (mapR f l); simpl; [discriminate|]. intros [= <-]. now apply IH.
  - intros [= <-]. eapply Hf, E.
Qed.

Lemma lax_result_raises {A} (o : option A) e :
  lax_result o = Raise e -> e = ValidationError.
Proof. destruct o; simpl; [discriminate|]. now intros [= <-]. Qed.

Lemma want_int_raises v e : want_int v = Raise e -> e = ValidationError.
Proof. destruct v; simpl; try discriminate; apply lax_result_raises. Qed.

Lemma want_str_raises v e : want_str v = Raise e -> e = ValidationError.
Proof. destruct v; simpl; try discriminate; apply lax_result_raises. Qed.

Lemma want_bool_raises v e : want_bool v = Raise e -> e = ValidationError.
Proof. destruct v; simpl; try discriminate; apply lax_result_raises. Qed.

Lemma want_date_raises v e : want_date v = Raise e -> e = ValidationError.
Proof.
  destruct v; simpl; try apply lax_result_raises.
  - destruct (date_fromisoformat _); [discriminate|apply lax_result_raises].
  - destruct (date_valid _); [discriminate|apply lax_result_raises].
Qed.

Lemma want_str_list_raises v e : want_str_list v = Raise e -> e = ValidationError.
Proof.
  destruct v; simpl; try apply lax_result_raises.
  destruct (exact_strs _); [discriminate|apply lax_result_raises].
Qed.

Lemma required_raises f k e : required f k = Raise e -> e = ValidationError.
Proof.
  unfold required. destruct (lookup k f); [discriminate|]. now intros [= <-].
Qed.

Lemma rbind_raises {A B} (r : result A) (k : A -> result B) (P : exn -> Prop) e :
  (forall e, r = Raise e -> P e) -> (forall a e, k a = Raise e -> P e) ->
  rbind r k = Raise e -> P e.
Proof.
  intros Hr Hk. destruct r as [a|e']; simpl.
  - apply Hk.
  - intros [= <-]. now apply Hr.
Qed.

(** A record that is not accepted is refused with the validation
    error. *)
Lemma validate_dict_raises f e :
  Task_validate (VDict f) = Raise e -> e = ValidationError.
Proof.
  unfold Task_validate.
  repeat (apply (rbind_raises _ _ (fun e => e = ValidationError));
          [ intros e'; first
              [ apply (rbind_raises _ _ (fun e => e = ValidationError));
                [apply required_raises | intros v e''; first
                   [apply want_int_raises | apply want_str_raises
                   | apply want_date_raises | apply want_bool_raises]]
              | destruct (lookup _ f); [|discriminate];
                first [apply want_str_list_raises | apply want_bool_raises] ]
          | intros ? ? ]).
  discriminate.
Qed.

(** Validation raises nothing that the readers of the files catch. *)
Lemma validate_raises r e : Task_validate r = Raise e -> uncaught e.
Proof.
  destruct r as [ | | | | | | f]; try (intros [= <-]; now right).
  intros H. left. exact (validate_dict_raises _ _ H).
Qed.

(** A record that is accepted has the six required fields. *)
Lemma validate_has_fields f t k :
  Task_validate (VDict f) = Ok t -> In k required_fields -> lookup k f <> None.
Proof.
  unfold Task_validate, required. intros H Hk.
  destruct (lookup "id" f) as [v1|] eqn:E1; [|discriminate H].
  cbn [rbind] in H. destruct (want_int v1); [|discriminate H]. cbn [rbind] in H.
  destruct (lookup "title" f) as [v2|] eqn:E2; [|discriminate H].
  cbn [rbind] in H. destruct (want_str v2); [|discriminate H]. cbn [rbind] in H.
  destruct (lookup "description" f) as [v3|] eqn:E3; [|discriminate H].
  cbn [rbind] in H. destruct (want_str v3); [|discriminate H]. cbn [rbind] in H.
  destruct (lookup "due" f) as [v4|] eqn:E4; [|discriminate H].
  cbn [rbind] in H. destruct (want_date v4); [|discriminate H]. cbn [rbind] in H.
  destruct (lookup "important" f) as [v5|] eqn:E5; [|discriminate H].
  cbn [rbind] in H. destruct (want_bool v5); [|discriminate H]. cbn [rbind] in H.
  destruct (lookup "urgent" f) as [v6|] eqn:E6; [|discriminate H].
  simpl in Hk.
  repeat (destruct Hk as [<-|Hk]; [congruence|]). contradiction.
Qed.

(** C6, as amended.  [_load_tasks] returns the empty list, and raises
    nothing, when the file is missing, when [json.load] rejects its text
    with [JSONDecodeError], when [open] raises [FileNotFoundError], and
    when its content is JSON but not a list; it returns the list a file
    holds; every other failure of reading the file, such as a file that
    cannot be opened or bytes that are not UTF-8, comes out of it.
    [view_archived_tasks] treats the archive file the same way, and
    validates the records of a list.  Neither writes. *)
Theorem load_tasks_missing_or_malformed st :
  _load_tasks st =
    (match active st with
     | FMissing => Ok []
     | FFails JSONDecodeError => Ok []
     | FFails FileNotFoundError => Ok []
     | FFails e => Raise e
     | FJson (VList l) => Ok l
     | FJson _ => Ok []
     end, st) /\
  view_archived_tasks st =
    (match archive st with
     | FMissing => Ok []
     | FFails JSONDecodeError => Ok []
     | FFails FileNotFoundError => Ok []
     | FFails e => Raise e
     | FJson (VList l) => mapR Task_validate l
     | FJson _ => Ok []
     end, st).
Proof.
  destruct st as [act ar w]. split.
  - destruct act as [ | [] | []]; reflexivity.
  - destruct ar as [ | [] | []]; try reflexivity.
    unfold view_archived_tasks, bind, try_except, lift. simpl.
    destruct (mapR Task_validate items) as [ts|e] eqn:E; [reflexivity|].
    destruct (mapR_raises _ uncaught _ _ validate_raises E) as [-> | ->];
      reflexivity.
Qed.

End AddingAndLoading.

(** * Tools that only read *)

Lemma readonly_ret {A} (a : A) : readonly (ret a).
Proof. intros st. reflexivity. Qed.

Lemma readonly_lift {A} (r : result A) : readonly (lift r).
Proof. intros st. reflexivity. Qed.

Lemma readonly_bind {A B} (m : M A) (k : A -> M B) :
  readonly m -> (forall a, readonly (k a)) -> readonly (bind m k).
Proof.
  intros Hm Hk st. unfold bind. specialize (Hm st).
  destruct (m st) as [[a|e] st1]; simpl in Hm; subst st1.
  - apply Hk.
  - reflexivity.
Qed.

Lemma readonly_try {A} (m h : M A) caught :
  readonly m -> readonly h -> readonly (try_except m caught h).
Proof.
  intros Hm Hh st. unfold try_except. specialize (Hm st).
  destruct (m st) as [[a|e] st1]; simpl in Hm; subst st1.
  - reflexivity.
  - destruct (existsb (exn_eqb e) caught); [apply Hh | reflexivity].
Qed.

Lemma readonly_exists p : readonly (os_path_exists p).
Proof. intros st. reflexivity. Qed.

Lemma readonly_json_load p : readonly (json_load p).
Proof. intros st. unfold json_load. now destruct (file_at p st). Qed.

Lemma readonly_load_tasks : readonly _load_tasks.
Proof.
  unfold _load_tasks. apply readonly_bind; [apply readonly_exists|].
  intros e. destruct (negb e); [apply readonly_ret|].
  apply readonly_try; [|apply readonly_ret].
  apply readonly_bind; [apply readonly_json_load|].
  intros []; apply readonly_ret.
Qed.

#[local] Hint Resolve readonly_ret readonly_lift readonly_exists
  readonly_json_load readonly_load_tasks : readonly.

Section ReadingTools.
Context {lax : Coercions}.

(** C10.  The four reading tools perform no write, whatever the files
    hold and whether or not they raise: after [list_tasks],
    [prioritise_tasks], [recommend_tasks_for_today] or
    [view_archived_tasks] both files and the log of writes are as
    before. *)
Theorem read_tools_write_nothing st today :
  snd (list_tasks st) = st /\
  snd (prioritise_tasks st) = st /\
  snd (recommend_tasks_for_today today st) = st /\
  snd (view_archived_tasks st) = st.
Proof.
  repeat split.
  - apply readonly_bind; auto with readonly.
  - apply readonly_bind; auto with readonly.
    intros raw. apply readonly_bind; auto with readonly.
  - apply readonly_bind; auto with readonly.
    intros raw. apply readonly_bind; auto with readonly.
    intros cand. apply readonly_bind; auto with readonly.
  - apply readonly_bind; auto with readonly.
    intros e. destruct (negb e); auto with readonly.
    apply readonly_try; auto with readonly.
    apply readonly_bind; auto with readonly.
    intros []; auto with readonly.
Qed.

(** C7.  A record without a due date does not sort last: next to a dated
    record of its quadrant, in either order, the sort of
    [prioritise_tasks] compares the stored date string with [date.max]
    and raises [TypeError]. *)
Theorem prioritise_undated_raises :
  prioritise_tasks undated_last_store = (Raise TypeError, undated_last_store) /\
  prioritise_tasks undated_first_store = (Raise TypeError, undated_first_store).
Proof. split; reflexivity. Qed.

(** Even alone, a record without a due date is not returned. *)
Lemma prioritise_undated_alone :
  fst (prioritise_tasks (mkstore (FJson (VList [undated_record])) FMissing []))
  = Raise ValidationError.
Proof. reflexivity. Qed.

End ReadingTools.

(** * Examples against the wording *)

(** C1, counterexample: a record written by hand with the word false for
    [important], which the validating library reads as the boolean.
    [list_tasks] lists both records as tasks; the sort takes the word for
    true, as every string that is not empty, and [prioritise_tasks] moves
    the task that is urgent and not important in front of the one that
    is important and not urgent. *)
Lemma prioritise_worded_flag_out_of_order :
  @list_tasks flag_words worded_store =
    (Ok [plain_task; worded_task], worded_store) /\
  @prioritise_tasks flag_words worded_store =
    (Ok [worded_task; plain_task], worded_store) /\
  (quadrant worded_task = 2 /\ quadrant plain_task = 1)%nat /\
  ~ eisenhower_le worded_task plain_task /\
  ~ StronglySorted eisenhower_le [worded_task; plain_task].
Proof.
  assert (H : ~ eisenhower_le worded_task plain_task).
  { intros [H | [H _]]; vm_compute in H; [lia | discriminate H]. }
  repeat split; try reflexivity; [exact H|].
  intros Hs. inversion Hs as [|? ? _ Hf]; subst.
  inversion Hf; subst. now apply H.
Qed.

(** C3, counterexample: the same record has the word false for
    [completed].  [list_tasks] lists it as a task that is not completed;
    the filter of [recommend_tasks_for_today] takes the word for true and
    leaves the task out, so that the first of the incomplete tasks in
    priority order is not returned. *)
Lemma recommend_worded_flag_left_out :
  @list_tasks flag_words worded_store =
    (Ok [plain_task; worded_task], worded_store) /\
  completed worded_task = false /\
  @prioritise_tasks flag_words worded_store =
    (Ok [worded_task; plain_task], worded_store) /\
  @recommend_tasks_for_today flag_words (mkdate 2025 6 1) worded_store =
    (Ok [plain_task], worded_store) /\
  firstn 5 (filter incomplete [worded_task; plain_task]) =
    [worded_task; plain_task].
Proof. repeat split; reflexivity. Qed.

(** C6, counterexample: a file that exists and cannot be opened is not
    loaded as the empty list, the error of [open] comes out; and content
    that is no JSON because its bytes are not UTF-8 is not loaded as the
    empty list either, the error of the decoding comes out. *)
Lemma load_tasks_unreadable_raises :
  (active unreadable_store = FFails PermissionError /\
   _load_tasks unreadable_store = (Raise PermissionError, unreadable_store)) /\
  (active undecodable_store = FFails UnicodeDecodeError /\
   _load_tasks undecodable_store = (Raise UnicodeDecodeError, undecodable_store)).
Proof. repeat split; reflexivity. Qed.


(** C5, counterexample: the description "Hi! Bye?" has two
    sentences and gives one fragment; and of two records with the id,
    the second keeps its subtasks. *)
Lemma decompose_splits_on_periods_only :
  (fst (decompose_task 1 exclaim_store) = Ok ["Hi! Bye?"] /\
   sentences_as_worded "Hi! Bye?" = ["Hi"; "Bye"]) /\
  (fst (decompose_task 1 twin_store) = Ok ["A"; "B"] /\
   map (fun r => (field "description" VNone r, field "subtasks" VNone r))
     (match active (snd (decompose_task 1 twin_store)) with
      | FJson (VList l) => l
      | _ => []
      end) =
   [ (VStr "A. B.", VList [VStr "A"; VStr "B"]);
     (VStr "C. D.", VList []) ]).
Proof. repeat split; reflexivity. Qed.

(** The tasks of the four quadrants come out in the order of the policy. *)
Example prioritise_one_per_quadrant :
  fst (@prioritise_tasks no_coercions pending_store) =
  Ok (rev (firstn 4 sample_tasks)).
Proof. reflexivity. Qed.

(** * Instances

    The instances are stated for a validating library that coerces
    nothing. *)

Section Instances.
#[local] Existing Instance no_coercions.

Lemma prioritise_tasks_eisenhower_sample :
  exists out,
    list_tasks sample_store = (Ok sample_tasks, sample_store) /\
    prioritise_tasks sample_store = (Ok out, sample_store) /\
    Permutation sample_tasks out /\
    StronglySorted eisenhower_le out.
Proof.
  apply (prioritise_tasks_eisenhower sample_store sample_tasks); reflexivity.
Defined.

Lemma recommend_top_five_incomplete_sample :
  exists out prio,
    list_tasks sample_store = (Ok sample_tasks, sample_store) /\
    recommend_tasks_for_today (mkdate 2025 6 1) sample_store = (Ok out, sample_store) /\
    prioritise_tasks sample_store = (Ok prio, sample_store) /\
    Permutation sample_tasks prio /\
    StronglySorted eisenhower_le prio /\
    out = firstn 5 (filter incomplete prio) /\
    (length out <= 5)%nat /\
    Forall (fun t => completed t = false) out.
Proof.
  apply (recommend_top_five_incomplete sample_store sample_tasks); reflexivity.
Defined.


Lemma mark_task_completed_not_found_sample :
  mark_task_completed 99 sample_store = (Ok "Task 99 not found.", sample_store).
Proof.
  apply (mark_task_completed_not_found sample_store sample_records 99);
    reflexivity.
Defined.


Lemma decompose_task_on_periods_sample :
  exists parts st',
    decompose_task 3 sample_store = (Ok parts, st') /\
    parts = ["Buy milk"; "Walk dog"; "Pay bills"].
Proof.
  destruct (decompose_task_on_periods sample_store
              (firstn 2 sample_records) plan_fields (skipn 3 sample_records)
              3 "Buy milk. Walk dog. Pay bills."
              eq_refl eq_refl eq_refl eq_refl eq_refl eq_refl)
    as (parts & st' & Hrun & _ & _ & _ & _ & _ & _ & Hex).
  exists parts, st'. split; [exact Hrun | apply Hex; reflexivity].
Defined.

Lemma add_task_then_list_sample :
  exists st',
    add_task 6 "Water plants" "Fill can. Water." (mkdate 2025 12 24)
      false true None false sample_store =
      (Ok (mkTask 6 "Water plants" "Fill can. Water." (mkdate 2025 12 24)
             false true [] false), st') /\
    list_tasks st' =
      (Ok (sample_tasks ++
           [mkTask 6 "Water plants" "Fill can. Water." (mkdate 2025 12 24)
              false true [] false]), st') /\
    store_ok st' = true.
Proof.
  apply (add_task_then_list sample_store sample_tasks 6 "Water plants"
           "Fill can. Water." (mkdate 2025 12 24) false true None false);
    reflexivity.
Defined.

End Instances.

(** * Records and tasks, field by field *)

Lemma exact_fields f t :
  exact_task (VDict f) = Some t ->
  lookup "id" f = Some (VInt (id t)) /\
  lookup "title" f = Some (VStr (title t)) /\
  lookup "description" f = Some (VStr (description t)) /\
  (exists vd, lookup "due" f = Some vd /\ exact_day vd = Some (due t)) /\
  lookup "important" f = Some (VBool (important t)) /\
  lookup "urgent" f = Some (VBool (urgent t)) /\
  match lookup "subtasks" f with
  | Some v => exact_list v
  | None => Some []
  end = Some (subtasks t) /\
  match lookup "completed" f with
  | Some v => exact_bool v
  | None => Some false
  end = Some (completed t).
Proof.
  unfold exact_task, obind. intros H.
  destruct (lookup "id" f) as [[]|]; try discriminate.
  destruct (lookup "title" f) as [[]|]; try discriminate.
  destruct (lookup "description" f) as [[]|]; try discriminate.
  cbn [exact_int exact_str] in H.
  destruct (lookup "due" f) as [vd|]; [|discriminate].
  destruct (exact_day vd) as [dd|] eqn:Ewd; [|discriminate].
  destruct (lookup "important" f) as [[]|]; try discriminate.
  destruct (lookup "urgent" f) as [[]|]; try discriminate.
  cbn [exact_bool] in H.
  destruct (match lookup "subtasks" f with Some v => exact_list v | None => Some [] end)
    as [su|]; [|discriminate].
  destruct (match lookup "completed" f with Some v => exact_bool v | None => Some false end)
    as [co|]; [|discriminate].
  inv_ok H. cbn.
  repeat split; try reflexivity. now exists vd.
Qed.

Lemma exact_intro f t vd :
  lookup "id" f = Some (VInt (id t)) ->
  lookup "title" f = Some (VStr (title t)) ->
  lookup "description" f = Some (VStr (description t)) ->
  lookup "due" f = Some vd -> exact_day vd = Some (due t) ->
  lookup "important" f = Some (VBool (important t)) ->
  lookup "urgent" f = Some (VBool (urgent t)) ->
  match lookup "subtasks" f with
  | Some v => exact_list v
  | None => Some []
  end = Some (subtasks t) ->
  match lookup "completed" f with
  | Some v => exact_bool v
  | None => Some false
  end = Some (completed t) ->
  exact_task (VDict f) = Some t.
Proof.
  intros Hi Ht Hde Hdu Hwd Him Hur Hsu Hco.
  unfold exact_task, obind.
  rewrite Hi, Ht, Hde, Hdu, Him, Hur. cbn [exact_int exact_str exact_bool].
  rewrite Hwd, Hsu, Hco.
  now destruct t.
Qed.

Lemma stored_as_dict r t : stored_as r t -> exists f, r = VDict f.
Proof.
  intros [H _]. destruct r; try discriminate. now eexists.
Qed.

Lemma stored_as_has_id n r t : stored_as r t -> has_id n r = has_task_id n t.
Proof.
  intros Hs. destruct (stored_as_dict _ _ Hs) as (f & ->). destruct Hs as [H _].
  apply exact_fields in H. destruct H as (Hi & _).
  unfold has_id, has_task_id, field. rewrite Hi. reflexivity.
Qed.

Lemma stored_as_completed r t : stored_as r t -> is_completed r = completed t.
Proof.
  intros [H J]. now apply (exact_shape _ _ H).
Qed.

Lemma stored_as_dicts raw ts :
  Forall2 stored_as raw ts -> forallb is_dict raw = true.
Proof.
  induction 1 as [|r t raw ts Hr _ IH]; simpl; [reflexivity|].
  destruct (stored_as_dict _ _ Hr) as (f & ->). exact IH.
Qed.

Lemma stored_as_no_id n raw ts :
  Forall2 stored_as raw ts ->
  existsb (has_id n) raw = existsb (has_task_id n) ts.
Proof.
  induction 1 as [|r t raw ts Hr _ IH]; simpl; [reflexivity|].
  now rewrite (stored_as_has_id n _ _ Hr), IH.
Qed.

Lemma stored_as_json raw ts :
  Forall2 stored_as raw ts -> forallb is_json raw = true.
Proof.
  induction 1 as [|r t raw ts [_ Hr] _ IH]; simpl; [reflexivity|].
  now rewrite Hr.
Qed.

(** The stored records split at the first task with the id. *)
Lemma stored_split n raw ts :
  Forall2 stored_as raw ts ->
  existsb (has_task_id n) ts = true ->
  exists pre f post pts t qts,
    raw = pre ++ VDict f :: post /\ ts = pts ++ t :: qts /\
    Forall2 stored_as pre pts /\ stored_as (VDict f) t /\
    Forall2 stored_as post qts /\
    existsb (has_task_id n) pts = false /\ id t = n /\
    find (has_task_id n) ts = Some t /\
    (forall g, update_first n g ts = pts ++ g t :: qts).
Proof.
  induction 1 as [|r t raw ts Hr Hl IH]; simpl; [discriminate|].
  unfold has_task_id at 1 3. destruct (id t =? n)%Z eqn:E.
  - intros _. destruct (stored_as_dict _ _ Hr) as (f & ->).
    exists [], f, raw, [], t, ts. simpl. unfold has_task_id. rewrite E.
    repeat split; auto; try apply Hr; try constructor. now apply Z.eqb_eq.
  - simpl. intros Hex.
    destruct (IH Hex) as (pre & f & post & pts & t' & qts & -> & -> & Hp & Hf & Hq
                          & Hn & Hid & Hfind & Hup).
    exists (r :: pre), f, post, (t :: pts), t', qts. simpl.
    fold (has_task_id n t). unfold has_task_id at 1 2. rewrite E.
    repeat split; auto; try apply Hf. intros g. now rewrite Hup.
Qed.

Lemma list_tasks_stored {lax : Coercions} st raw ts :
  _load_tasks st = (Ok raw, st) -> Forall2 stored_as raw ts ->
  list_tasks st = (Ok ts, st).
Proof.
  intros Hl Hs. unfold list_tasks, bind, lift. rewrite Hl.
  now rewrite (mapR_stored_as _ _ Hs).
Qed.

Lemma load_after_save tasks st :
  forallb is_json tasks = true ->
  _load_tasks (put_file DATA_PATH (FJson (json_roundtrip (VList tasks))) st) =
  (Ok tasks, put_file DATA_PATH (FJson (json_roundtrip (VList tasks))) st).
Proof.
  intros J. rewrite load_tasks_run. simpl. now rewrite (json_roundtrip_list _ J).
Qed.

Lemma forallb_is_json_middle pre r r' post :
  forallb is_json (pre ++ r :: post) = true -> is_json r' = true ->
  forallb is_json (pre ++ r' :: post) = true.
Proof.
  rewrite !forallb_app. simpl. intros H Hr.
  apply andb_prop in H. destruct H as [Hp H].
  apply andb_prop in H. destruct H as [_ Hq]. now rewrite Hp, Hr, Hq.
Qed.

Lemma forallb_is_json_at pre r post :
  forallb is_json (pre ++ r :: post) = true -> is_json r = true.
Proof.
  rewrite forallb_app. simpl. intros H.
  apply andb_prop in H. destruct H as [_ H]. now apply andb_prop in H.
Qed.

Lemma is_json_strs l : is_json (VList (map VStr l)) = true.
Proof.
  simpl. rewrite forallb_forall. intros x Hx. apply in_map_iff in Hx.
  now destruct Hx as (s & <- & _).
Qed.

(** * Looking a task up by its id *)

Section FurtherProperties.
Context {lax : Coercions}.

Lemma first_with_id_miss n tasks :
  forallb is_dict tasks = true -> existsb (has_id n) tasks = false ->
  first_with_id n tasks = Ok None.
Proof.
  induction tasks as [|t tasks IH]; simpl; [reflexivity|].
  intros Hd Hn. apply andb_prop in Hd. destruct Hd as [Ht Hd].
  apply orb_false_elim in Hn. destruct Hn as [Hi Hn].
  rewrite dict_get_field by assumption. simpl.
  unfold has_id in Hi. rewrite Hi. auto.
Qed.

Lemma first_with_id_hit n r post : forall pre,
  forallb is_dict pre = true -> existsb (has_id n) pre = false ->
  is_dict r = true -> has_id n r = true ->
  first_with_id n (pre ++ r :: post) = Ok (Some r).
Proof.
  induction pre as [|t pre IH]; simpl; intros Hd Hn Hr Hi.
  - rewrite dict_get_field by assumption. simpl.
    unfold has_id in Hi. now rewrite Hi.
  - apply andb_prop in Hd. destruct Hd as [Ht Hd].
    apply orb_false_elim in Hn. destruct Hn as [Hti Hn].
    rewrite dict_get_field by assumption. simpl.
    unfold has_id in Hti. rewrite Hti. auto.
Qed.

Lemma first_with_id_bad n x post : forall pre,
  forallb is_dict pre = true -> existsb (has_id n) pre = false ->
  is_dict x = false ->
  first_with_id n (pre ++ x :: post) = Raise AttributeError.
Proof.
  induction pre as [|t pre IH]; simpl; intros Hd Hn Hx.
  - destruct x; try reflexivity. discriminate.
  - apply andb_prop in Hd. destruct Hd as [Ht Hd].
    apply orb_false_elim in Hn. destruct Hn as [Hti Hn].
    rewrite dict_get_field by assumption. simpl.
    unfold has_id in Hti. rewrite Hti. auto.
Qed.

Lemma exact_day_inv vd d : exact_day vd = Some d -> vd = VStr (isoformat d).
Proof.
  destruct vd; simpl; try discriminate.
  intros E. apply fromisoformat_inv in E. now destruct E as [_ <-].
Qed.

Lemma find_existsb {A} (p : A -> bool) l x :
  find p l = Some x -> existsb p l = true.
Proof.
  induction l as [|y l IH]; simpl; [discriminate|].
  destruct (p y); [reflexivity | exact IH].
Qed.

(** X1.  For a store whose records hold their fields in their own JSON
    types, as the tools write them, [explain_task] returns the sentence
    built from the first task with the id: its title, whether it is
    important and urgent, its due date as [YYYY-MM-DD], and its
    description.  Nothing is written. *)
Theorem explain_task_of_stored st ts n t :
  store_ok st = true ->
  typed_tasks st = Some ts ->
  find (has_task_id n) ts = Some t ->
  explain_task n st = (Ok (explanation t), st).
Proof.
  intros Hok Hl Hfind.
  destruct (typed_tasks_inv st ts Hok Hl) as (raw & E & Hs).
  destruct (stored_split n raw ts Hs (find_existsb _ _ _ Hfind))
    as (pre & f & post & pts & t' & qts & -> & -> & Hp & Hf & Hq & Hn & Hid & Hf' & _).
  rewrite Hfind in Hf'. injection Hf' as <-.
  unfold explain_task, bind, lift. rewrite load_tasks_run, E.
  rewrite first_with_id_hit; try reflexivity.
  - destruct Hf as [Hv Hj].
    destruct (exact_fields _ _ Hv)
      as (_ & Hti & Hde & (vd & Hdu & Hwd) & Him & Hur & _).
    pose proof (exact_day_inv _ _ Hwd) as ->.
    simpl dict_get. rewrite Hti, Hde, Hdu, Him, Hur.
    unfold ret, explanation. simpl truthy. simpl py_str. reflexivity.
  - now apply (stored_as_dicts pre pts).
  - now rewrite (stored_as_no_id n pre pts).
  - rewrite (stored_as_has_id n _ _ Hf). unfold has_task_id. now apply Z.eqb_eq.
Qed.

(** X2.  When no stored record has the id, [explain_task] returns the
    message that no task was found; it raises nothing and writes
    nothing. *)
Theorem explain_task_not_found st tasks n :
  _load_tasks st = (Ok tasks, st) ->
  forallb is_dict tasks = true ->
  existsb (has_id n) tasks = false ->
  explain_task n st =
  (Ok ("No task found with id " ++ str_of_int n ++ ".")%string, st).
Proof.
  intros Hl Hd Hn. unfold explain_task, bind, lift. rewrite Hl.
  now rewrite first_with_id_miss.
Qed.

(** X3.  [explain_task] performs no write, whatever the files hold and
    whether or not it raises. *)
Theorem explain_task_writes_nothing n st : snd (explain_task n st) = st.
Proof.
  apply readonly_bind; auto with readonly.
  intros tasks. apply readonly_bind; auto with readonly.
  intros [task|]; auto with readonly.
  repeat (apply readonly_bind; auto with readonly; intros ?).
Qed.

(** * Marking a task *)

Lemma mark_loop_hit task_id f post : forall pre seen st,
  forallb is_dict pre = true ->
  existsb (has_id task_id) pre = false ->
  has_id task_id (VDict f) = true ->
  mark_loop task_id seen (pre ++ VDict f :: post) st =
  (Ok ("Task " ++ str_of_int task_id ++ " marked as completed.")%string,
   put_file DATA_PATH
     (FJson (json_roundtrip
        (VList ((seen ++ pre) ++
                VDict (assoc_set "completed" (VBool true) f) :: post))))
     st).
Proof.
  induction pre as [|t pre IH]; intros seen st Hd Hn Hi.
  - simpl. unfold bind, lift. simpl dict_get.
    unfold has_id in Hi. simpl field in Hi. rewrite Hi.
    simpl dict_setitem. cbv iota beta.
    unfold _save_tasks, json_dump, ret. now rewrite app_nil_r.
  - simpl in Hd, Hn. apply andb_prop in Hd. destruct Hd as [Ht Hd].
    apply orb_false_elim in Hn. destruct Hn as [Hti Hn].
    simpl. unfold bind, lift. rewrite dict_get_field by assumption.
    unfold has_id in Hti. rewrite Hti.
    rewrite (IH (seen ++ [t]) st Hd Hn Hi).
    replace ((seen ++ [t]) ++ pre) with (seen ++ t :: pre)
      by (rewrite <- app_assoc; reflexivity).
    reflexivity.
Qed.

Lemma has_id_set k v n f :
  String.eqb "id" k = false ->
  has_id n (VDict (assoc_set k v f)) = has_id n (VDict f).
Proof.
  intros Hk. unfold has_id, field. now rewrite lookup_assoc_set_other.
Qed.

Lemma assoc_set_twice k v w f :
  assoc_set k v (assoc_set k w f) = assoc_set k v f.
Proof.
  induction f as [|[k' x] f IH]; simpl.
  - now rewrite String.eqb_refl.
  - destruct (String.eqb k k') eqn:E; simpl; rewrite E; [reflexivity|].
    now rewrite IH.
Qed.

Lemma mark_task_completed_run st pre f post n :
  store_ok st = true ->
  _load_tasks st = (Ok (pre ++ VDict f :: post), st) ->
  forallb is_dict pre = true ->
  existsb (has_id n) pre = false ->
  has_id n (VDict f) = true ->
  let st' := put_file DATA_PATH
    (FJson (VList (pre ++ VDict (assoc_set "completed" (VBool true) f) :: post))) st in
  mark_task_completed n st =
    (Ok ("Task " ++ str_of_int n ++ " marked as completed.")%string, st') /\
  _load_tasks st' =
    (Ok (pre ++ VDict (assoc_set "completed" (VBool true) f) :: post), st') /\
  store_ok st' = true.
Proof.
  intros Hok Hl Hd Hn Hi st'.
  pose proof (load_outcome_json _ _ (store_ok_active _ Hok) (load_tasks_inv _ _ Hl)) as J.
  assert (J' : forallb is_json
                 (pre ++ VDict (assoc_set "completed" (VBool true) f) :: post) = true).
  { apply (forallb_is_json_middle _ _ _ _ J).
    apply is_json_assoc_set; [reflexivity|]. exact (forallb_is_json_at _ _ _ J). }
  split; [|split].
  - unfold mark_task_completed, bind. rewrite Hl.
    rewrite (mark_loop_hit n f post pre [] st Hd Hn Hi). simpl app.
    unfold st'. do 3 f_equal. simpl. f_equal. now apply json_roundtrip_list.
  - unfold st'. rewrite load_tasks_run. destruct st; reflexivity.
  - unfold st', store_ok in *. destruct st as [a ar w]. simpl in *.
    apply andb_prop in Hok. destruct Hok as [_ ->]. now rewrite J'.
Qed.

(** X4.  [mark_task_completed] sets [completed] to true in the first
    record that has the id and in no other; every other field and record
    stays as it was, in place.  It answers that the task was marked,
    writes the active file once and leaves the archive alone. *)
Theorem mark_task_completed_found st pre f post n :
  store_ok st = true ->
  _load_tasks st = (Ok (pre ++ VDict f :: post), st) ->
  forallb is_dict pre = true ->
  existsb (has_id n) pre = false ->
  has_id n (VDict f) = true ->
  exists f' st',
    mark_task_completed n st =
      (Ok ("Task " ++ str_of_int n ++ " marked as completed.")%string, st') /\
    _load_tasks st' = (Ok (pre ++ VDict f' :: post), st') /\
    lookup "completed" f' = Some (VBool true) /\
    (forall k, String.eqb k "completed" = false -> lookup k f' = lookup k f) /\
    archive st' = archive st /\
    written st' = DATA_PATH :: written st.
Proof.
  intros Hok Hl Hd Hn Hi.
  destruct (mark_task_completed_run st pre f post n Hok Hl Hd Hn Hi) as (Hr & Hl' & _).
  eexists; eexists. split; [exact Hr|]. split; [exact Hl'|].
  split; [apply lookup_assoc_set_same|].
  split; [intros k Hk; now apply lookup_assoc_set_other|].
  now destruct st.
Qed.

Lemma stored_as_set_completed f t :
  stored_as (VDict f) t ->
  stored_as (VDict (assoc_set "completed" (VBool true) f)) (set_completed t).
Proof.
  intros [Hv Hj]. split; [|now apply is_json_assoc_set].
  destruct (exact_fields _ _ Hv)
    as (Hi & Hti & Hde & (vd & Hdu & Hwd) & Him & Hur & Hsu & _).
  apply exact_intro with (vd := vd);
    rewrite ?lookup_assoc_set_same, ?lookup_assoc_set_other by reflexivity;
    auto.
Qed.

Lemma Forall2_middle {A B} (R : A -> B -> Prop) l1 x l2 m1 y m2 :
  Forall2 R l1 m1 -> R x y -> Forall2 R l2 m2 ->
  Forall2 R (l1 ++ x :: l2) (m1 ++ y :: m2).
Proof.
  intros H1 Hx H2. apply Forall2_app; [assumption|]. now constructor.
Qed.

Lemma mark_then_list_run st ts n :
  store_ok st = true ->
  typed_tasks st = Some ts ->
  existsb (has_task_id n) ts = true ->
  exists st',
    mark_task_completed n st =
      (Ok ("Task " ++ str_of_int n ++ " marked as completed.")%string, st') /\
    typed_tasks st' = Some (update_first n set_completed ts) /\
    store_ok st' = true /\ archive st' = archive st.
Proof.
  intros Hok Hl Hex.
  destruct (typed_tasks_inv st ts Hok Hl) as (raw & E & Hs).
  destruct (stored_split n raw ts Hs Hex)
    as (pre & f & post & pts & t & qts & -> & -> & Hp & Hf & Hq & Hn & Hid & _ & Hup).
  assert (Hload : _load_tasks st = (Ok (pre ++ VDict f :: post), st))
    by now rewrite load_tasks_run, E.
  destruct (mark_task_completed_run st pre f post n Hok Hload) as (Hr & Hl' & Hok').
  - now apply (stored_as_dicts pre pts).
  - now rewrite (stored_as_no_id n pre pts).
  - rewrite (stored_as_has_id n _ _ Hf). unfold has_task_id. now apply Z.eqb_eq.
  - eexists. split; [exact Hr|]. split; [|split; [exact Hok' | now destruct st]].
    apply (typed_tasks_stored _ _ _ Hl'). rewrite Hup.
    apply Forall2_middle; auto. now apply stored_as_set_completed.
Qed.

(** X5.  For a store whose records hold their fields in their own JSON
    types, as the tools write them, one of them with the id: after
    [mark_task_completed], [list_tasks] shows the same tasks in the same
    order, the first one with the id now completed and nothing else
    changed; the records are still as the tools write them. *)
Theorem mark_task_completed_then_list st ts n :
  store_ok st = true ->
  typed_tasks st = Some ts ->
  existsb (has_task_id n) ts = true ->
  exists st',
    mark_task_completed n st =
      (Ok ("Task " ++ str_of_int n ++ " marked as completed.")%string, st') /\
    list_tasks st' = (Ok (update_first n set_completed ts), st') /\
    typed_tasks st' = Some (update_first n set_completed ts).
Proof.
  intros Hok Hl Hex.
  destruct (mark_then_list_run st ts n Hok Hl Hex) as (st' & Hr & Hl' & _).
  exists st'. split; [exact Hr|]. split; [now apply typed_tasks_list | exact Hl'].
Qed.

(** X6.  Marking the same id twice is marking it once: the second call
    answers the same and leaves both files with the content they had
    after the first. *)
Theorem mark_task_completed_twice st pre f post n :
  store_ok st = true ->
  _load_tasks st = (Ok (pre ++ VDict f :: post), st) ->
  forallb is_dict pre = true ->
  existsb (has_id n) pre = false ->
  has_id n (VDict f) = true ->
  exists st1 st2,
    mark_task_completed n st =
      (Ok ("Task " ++ str_of_int n ++ " marked as completed.")%string, st1) /\
    mark_task_completed n st1 =
      (Ok ("Task " ++ str_of_int n ++ " marked as completed.")%string, st2) /\
    active st2 = active st1 /\ archive st2 = archive st1.
Proof.
  intros Hok Hl Hd Hn Hi.
  destruct (mark_task_completed_run st pre f post n Hok Hl Hd Hn Hi) as (Hr & Hl1 & Hok1).
  assert (Hi1 : has_id n (VDict (assoc_set "completed" (VBool true) f)) = true)
    by now rewrite has_id_set.
  destruct (mark_task_completed_run _ pre _ post n Hok1 Hl1 Hd Hn Hi1) as (Hr2 & _ & _).
  eexists; eexists. split; [exact Hr|]. split; [exact Hr2|].
  rewrite assoc_set_twice. now destruct st.
Qed.

(** * Decomposing a task *)

Lemma decompose_loop_miss task_id rest : forall seen st,
  forallb is_dict rest = true ->
  existsb (has_id task_id) rest = false ->
  decompose_loop task_id seen rest st = (Ok [], st).
Proof.
  induction rest as [|t rest IH]; intros seen st Hd Hn; simpl; [reflexivity|].
  simpl in Hd, Hn. apply andb_prop in Hd. destruct Hd as [Ht Hd].
  apply orb_false_elim in Hn. destruct Hn as [Hi Hn].
  unfold bind, lift. rewrite dict_get_field by assumption.
  unfold has_id in Hi. rewrite Hi. now apply IH.
Qed.

(** X7.  When no stored record has the id, [decompose_task] returns the
    empty list, raises nothing and performs no write. *)
Theorem decompose_task_not_found st tasks n :
  _load_tasks st = (Ok tasks, st) ->
  forallb is_dict tasks = true ->
  existsb (has_id n) tasks = false ->
  decompose_task n st = (Ok [], st).
Proof.
  intros Hl Hd Hn. unfold decompose_task, bind. rewrite Hl.
  now apply decompose_loop_miss.
Qed.

Lemma decompose_task_run st pre f post n d :
  store_ok st = true ->
  _load_tasks st = (Ok (pre ++ VDict f :: post), st) ->
  forallb is_dict pre = true ->
  existsb (has_id n) pre = false ->
  has_id n (VDict f) = true ->
  field "description" (VStr EmptyString) (VDict f) = VStr d ->
  let f' := assoc_set "subtasks" (VList (map VStr (fragments d))) f in
  let st' := put_file DATA_PATH (FJson (VList (pre ++ VDict f' :: post))) st in
  decompose_task n st = (Ok (fragments d), st') /\
  _load_tasks st' = (Ok (pre ++ VDict f' :: post), st') /\
  store_ok st' = true.
Proof.
  intros Hok Hl Hd Hn Hi Hdesc f' st'.
  pose proof (load_outcome_json _ _ (store_ok_active _ Hok) (load_tasks_inv _ _ Hl)) as J.
  assert (J' : forallb is_json (pre ++ VDict f' :: post) = true).
  { apply (forallb_is_json_middle _ _ _ _ J).
    apply is_json_assoc_set; [apply is_json_strs|].
    exact (forallb_is_json_at _ _ _ J). }
  split; [|split].
  - unfold decompose_task, bind. rewrite Hl.
    rewrite (decompose_loop_hit n f post d pre [] st Hd Hn Hi Hdesc).
    cbv zeta. simpl app. fold (fragments d). fold f'.
    unfold st'. do 3 f_equal. simpl. f_equal. now apply json_roundtrip_list.
  - unfold st'. rewrite load_tasks_run. destruct st; reflexivity.
  - unfold st', store_ok in *. destruct st as [a ar w]. simpl in *.
    apply andb_prop in Hok. destruct Hok as [_ ->]. now rewrite J'.
Qed.

Lemma field_set_other k k' v dflt f :
  String.eqb k' k = false ->
  field k' dflt (VDict (assoc_set k v f)) = field k' dflt (VDict f).
Proof.
  intros Hk. unfold field. now rewrite lookup_assoc_set_other.
Qed.

(** X8.  [decompose_task] replaces the subtasks, it does not add to
    them: a second call for the same id returns the same fragments and
    leaves both files with the content they had after the first. *)
Theorem decompose_task_twice st pre f post n d :
  store_ok st = true ->
  _load_tasks st = (Ok (pre ++ VDict f :: post), st) ->
  forallb is_dict pre = true ->
  existsb (has_id n) pre = false ->
  has_id n (VDict f) = true ->
  field "description" (VStr EmptyString) (VDict f) = VStr d ->
  exists parts st1 st2,
    decompose_task n st = (Ok parts, st1) /\
    decompose_task n st1 = (Ok parts, st2) /\
    active st2 = active st1 /\ archive st2 = archive st1.
Proof.
  intros Hok Hl Hd Hn Hi Hdesc.
  destruct (decompose_task_run st pre f post n d Hok Hl Hd Hn Hi Hdesc)
    as (Hr & Hl1 & Hok1).
  set (f' := assoc_set "subtasks" (VList (map VStr (fragments d))) f) in *.
  assert (Hi1 : has_id n (VDict f') = true) by (unfold f'; now rewrite has_id_set).
  assert (Hd1 : field "description" (VStr EmptyString) (VDict f') = VStr d)
    by (unfold f'; now rewrite field_set_other).
  destruct (decompose_task_run _ pre f' post n d Hok1 Hl1 Hd Hn Hi1 Hd1) as (Hr2 & _ & _).
  exists (fragments d). eexists; eexists.
  split; [exact Hr|]. split; [exact Hr2|].
  unfold f'. rewrite assoc_set_twice. now destruct st.
Qed.

Lemma stored_as_set_subtasks f t l :
  stored_as (VDict f) t ->
  stored_as (VDict (assoc_set "subtasks" (VList (map VStr l)) f)) (set_subtasks l t).
Proof.
  intros [Hv Hj]. split; [|apply is_json_assoc_set; [apply is_json_strs|exact Hj]].
  destruct (exact_fields _ _ Hv)
    as (Hi & Hti & Hde & (vd & Hdu & Hwd) & Him & Hur & _ & Hco).
  apply exact_intro with (vd := vd);
    rewrite ?lookup_assoc_set_same, ?lookup_assoc_set_other by reflexivity;
    auto.
  apply exact_strs_map.
Qed.

(** X9.  For a store whose records hold their fields in their own JSON
    types, as the tools write them, one of them with the id:
    [decompose_task] returns the fragments of the description of the
    first task with the id, and [list_tasks] then shows the same tasks in
    the same order, that task with these fragments as its subtasks and
    nothing else changed; the records are still as the tools write
    them. *)
Theorem decompose_task_then_list st ts n :
  store_ok st = true ->
  typed_tasks st = Some ts ->
  existsb (has_task_id n) ts = true ->
  exists t st',
    find (has_task_id n) ts = Some t /\
    decompose_task n st = (Ok (fragments (description t)), st') /\
    list_tasks st' =
      (Ok (update_first n
             (fun t => set_subtasks (fragments (description t)) t) ts), st') /\
    typed_tasks st' =
      Some (update_first n
              (fun t => set_subtasks (fragments (description t)) t) ts).
Proof.
  intros Hok Hl Hex.
  destruct (typed_tasks_inv st ts Hok Hl) as (raw & E & Hs).
  destruct (stored_split n raw ts Hs Hex)
    as (pre & f & post & pts & t & qts & -> & -> & Hp & Hf & Hq & Hn & Hid & Hfind & Hup).
  assert (Hload : _load_tasks st = (Ok (pre ++ VDict f :: post), st))
    by now rewrite load_tasks_run, E.
  assert (Hdesc : field "description" (VStr EmptyString) (VDict f)
                  = VStr (description t)).
  { destruct Hf as [Hv _]. apply exact_fields in Hv.
    destruct Hv as (_ & _ & Hde & _). unfold field. now rewrite Hde. }
  destruct (decompose_task_run st pre f post n (description t) Hok Hload)
    as (Hr & Hl' & _); auto.
  - now apply (stored_as_dicts pre pts).
  - now rewrite (stored_as_no_id n pre pts).
  - rewrite (stored_as_has_id n _ _ Hf). unfold has_task_id. now apply Z.eqb_eq.
  - exists t. eexists. split; [exact Hfind|]. split; [exact Hr|].
    assert (Hs' : Forall2 stored_as
                    (pre ++ VDict (assoc_set "subtasks"
                                     (VList (map VStr (fragments (description t)))) f)
                         :: post)
                    (update_first n
                       (fun t => set_subtasks (fragments (description t)) t)
                       (pts ++ t :: qts))).
    { rewrite Hup. apply Forall2_middle; auto. now apply stored_as_set_subtasks. }
    split; [exact (list_tasks_stored _ _ _ Hl' Hs')
           | exact (typed_tasks_stored _ _ _ Hl' Hs')].
Qed.

Lemma loop_bad_mark n x post : forall pre seen st,
  forallb is_dict pre = true -> existsb (has_id n) pre = false ->
  is_dict x = false ->
  mark_loop n seen (pre ++ x :: post) st = (Raise AttributeError, st).
Proof.
  induction pre as [|t pre IH]; intros seen st Hd Hn Hx; simpl.
  - unfold bind, lift. destruct x; try reflexivity. discriminate.
  - simpl in Hd, Hn. apply andb_prop in Hd. destruct Hd as [Ht Hd].
    apply orb_false_elim in Hn. destruct Hn as [Hti Hn].
    unfold bind, lift. rewrite dict_get_field by assumption.
    unfold has_id in Hti. rewrite Hti. now apply IH.
Qed.

Lemma loop_bad_decompose n x post : forall pre seen st,
  forallb is_dict pre = true -> existsb (has_id n) pre = false ->
  is_dict x = false ->
  decompose_loop n seen (pre ++ x :: post) st = (Raise AttributeError, st).
Proof.
  induction pre as [|t pre IH]; intros seen st Hd Hn Hx; simpl.
  - unfold bind, lift. destruct x; try reflexivity. discriminate.
  - simpl in Hd, Hn. apply andb_prop in Hd. destruct Hd as [Ht Hd].
    apply orb_false_elim in Hn. destruct Hn as [Hti Hn].
    unfold bind, lift. rewrite dict_get_field by assumption.
    unfold has_id in Hti. rewrite Hti. now apply IH.
Qed.

(** X10.  The lookups by id ask every element for its [id] until one
    matches.  A stored element that is no object (a number, a string, a
    list, null), met before a match, makes [mark_task_completed],
    [decompose_task] and [explain_task] raise [AttributeError]; nothing is
    written. *)
Theorem lookups_need_objects st pre x post n :
  _load_tasks st = (Ok (pre ++ x :: post), st) ->
  forallb is_dict pre = true ->
  existsb (has_id n) pre = false ->
  is_dict x = false ->
  mark_task_completed n st = (Raise AttributeError, st) /\
  decompose_task n st = (Raise AttributeError, st) /\
  explain_task n st = (Raise AttributeError, st).
Proof.
  intros Hl Hd Hn Hx. repeat split.
  - unfold mark_task_completed, bind. rewrite Hl. now apply loop_bad_mark.
  - unfold decompose_task, bind. rewrite Hl. now apply loop_bad_decompose.
  - unfold explain_task, bind, lift. rewrite Hl.
    now rewrite first_with_id_bad.
Qed.

(** X11.  When the description of the first record with the id is
    present and is no string, [decompose_task] raises [AttributeError]
    and writes nothing. *)
Theorem decompose_task_description_not_text st pre f post n :
  _load_tasks st = (Ok (pre ++ VDict f :: post), st) ->
  forallb is_dict pre = true ->
  existsb (has_id n) pre = false ->
  has_id n (VDict f) = true ->
  is_text (field "description" (VStr EmptyString) (VDict f)) = false ->
  decompose_task n st = (Raise AttributeError, st).
Proof.
  intros Hl Hd Hn Hi Hdesc. unfold decompose_task, bind. rewrite Hl. clear Hl.
  generalize (@nil value) as seen.
  induction pre as [|t pre IH]; intros seen.
  - simpl. unfold bind, lift. simpl dict_get.
    unfold has_id in Hi. simpl field in Hi. rewrite Hi.
    simpl field in Hdesc.
    destruct (match lookup "description" f with Some v => v | None => VStr EmptyString end);
      try reflexivity. discriminate.
  - simpl in Hd, Hn. apply andb_prop in Hd. destruct Hd as [Ht Hd].
    apply orb_false_elim in Hn. destruct Hn as [Hti Hn].
    simpl. unfold bind, lift. rewrite dict_get_field by assumption.
    unfold has_id in Hti. rewrite Hti. now apply IH.
Qed.

(** * Adding a task *)

Lemma add_task_run st raw i ti de du im ur su co :
  store_ok st = true ->
  _load_tasks st = (Ok raw, st) ->
  let t := mkTask i ti de du im ur (match su with None => [] | Some l => l end) co in
  let st' := put_file DATA_PATH
    (FJson (VList (raw ++ [json_roundtrip (model_dump t)]))) st in
  add_task i ti de du im ur su co st = (Ok t, st') /\
  _load_tasks st' = (Ok (raw ++ [json_roundtrip (model_dump t)]), st') /\
  store_ok st' = true.
Proof.
  intros Hok Hl t st'.
  pose proof (load_outcome_json _ _ (store_ok_active _ Hok) (load_tasks_inv _ _ Hl)) as J.
  split; [|split].
  - unfold add_task, bind, _save_tasks, json_dump, ret. rewrite Hl.
    unfold st'. do 3 f_equal. cbn [json_roundtrip].
    rewrite map_app, (json_roundtrip_list _ J). reflexivity.
  - unfold st'. rewrite load_tasks_run. destruct st; reflexivity.
  - destruct st as [a ar w]. unfold st', store_ok in *.
    cbn [put_file active archive file_ok] in *.
    apply andb_prop in Hok. destruct Hok as [_ Har]. rewrite Har, andb_true_r.
    change (forallb is_json (raw ++ [json_roundtrip (model_dump t)]) = true).
    rewrite forallb_app, J. cbn [forallb]. now rewrite is_json_roundtrip.
Qed.

(** X12.  When [_load_tasks] returns, [add_task] keeps every record it
    loaded as it is and in place, and puts the new record last, whatever
    ids are already stored; it writes the active file once and leaves the
    archive alone.  A file that is loaded and holds no JSON list (it is
    missing, or [json.load] rejects its text with [JSONDecodeError], or
    it holds other JSON) counts as empty: the new record is then the
    only one, and what the file held is gone. *)
Theorem add_task_appends st raw i ti de du im ur su co :
  store_ok st = true ->
  _load_tasks st = (Ok raw, st) ->
  exists st',
    add_task i ti de du im ur su co st =
      (Ok (mkTask i ti de du im ur (match su with None => [] | Some l => l end) co),
       st') /\
    active st' =
      FJson (VList (raw ++ [json_roundtrip (model_dump
        (mkTask i ti de du im ur (match su with None => [] | Some l => l end) co))])) /\
    (match active st with FJson (VList _) => True | _ => raw = [] end) /\
    archive st' = archive st /\
    written st' = DATA_PATH :: written st.
Proof.
  intros Hok Hl.
  destruct (add_task_run st raw i ti de du im ur su co Hok Hl) as (Hr & _ & _).
  eexists. split; [exact Hr|].
  apply load_tasks_inv in Hl.
  destruct st as [[ | [] | []] ar w]; simpl in *;
    try discriminate; try injection Hl as <-; repeat split; reflexivity.
Qed.

(** X13.  Ids are not checked for being new, and a lookup stops at the
    first match: after a task is added under an id that a stored record
    already has, [mark_task_completed] for this id marks the older record
    and leaves the added one as it was given. *)
Theorem add_task_same_id_then_mark st pre f post n ti de du im ur su co :
  store_ok st = true ->
  _load_tasks st = (Ok (pre ++ VDict f :: post), st) ->
  forallb is_dict pre = true ->
  existsb (has_id n) pre = false ->
  has_id n (VDict f) = true ->
  exists st',
    (add_task n ti de du im ur su co ;;; mark_task_completed n) st =
      (Ok ("Task " ++ str_of_int n ++ " marked as completed.")%string, st') /\
    _load_tasks st' =
      (Ok (pre ++ VDict (assoc_set "completed" (VBool true) f) ::
           post ++ [json_roundtrip (model_dump
             (mkTask n ti de du im ur (match su with None => [] | Some l => l end) co))]),
       st').
Proof.
  intros Hok Hl Hd Hn Hi.
  destruct (add_task_run st _ n ti de du im ur su co Hok Hl) as (Hr & Hl1 & Hok1).
  match type of Hr with _ = (_, ?s) => set (st1 := s) in * end.
  rewrite <- app_assoc, <- app_comm_cons in Hl1.
  destruct (mark_task_completed_run _ pre f _ n Hok1 Hl1 Hd Hn Hi) as (Hr2 & Hl2 & _).
  eexists. split; [|exact Hl2].
  unfold bind. now rewrite Hr, Hr2.
Qed.

(** * Archiving, case by case *)

Lemma archive_completed_run st tasks :
  _load_tasks st = (Ok tasks, st) ->
  forallb is_dict tasks = true ->
  filter is_completed tasks <> [] ->
  let moved := filter is_completed tasks in
  let kept := filter (fun r => negb (is_completed r)) tasks in
  let msg := ("Archived " ++ str_of_int (Z.of_nat (length moved))
                ++ " completed tasks.")%string in
  let st1 := put_file DATA_PATH (FJson (json_roundtrip (VList kept))) st in
  archive_completed_tasks st =
    match archive st with
    | FMissing | FFails JSONDecodeError =>
        (Ok msg, put_file archive_path (FJson (json_roundtrip (VList moved))) st1)
    | FFails e => (Raise e, st1)
    | FJson (VList l) =>
        (Ok msg, put_file archive_path (FJson (json_roundtrip (VList (l ++ moved)))) st1)
    | FJson _ => (Raise AttributeError, st1)
    end.
Proof.
  intros Hl Hd Hne. cbv zeta.
  unfold archive_completed_tasks, bind, lift. rewrite Hl.
  rewrite (filterR_dicts truthy) by assumption.
  rewrite (filterR_dicts (fun c => negb (truthy c))) by assumption.
  change (fun r => truthy (field "completed" VNone r)) with is_completed.
  change (fun r => negb (truthy (field "completed" VNone r)))
    with (fun r => negb (is_completed r)).
  destruct (filter is_completed tasks) as [|c cs] eqn:Ec; [contradiction|].
  destruct st as [act ar w]. simpl archive.
  destruct ar as [ | [] | []]; reflexivity.
Qed.

Lemma filter_nonempty_existsb {A} (p : A -> bool) l :
  existsb p l = true -> filter p l <> [].
Proof.
  induction l as [|x l IH]; simpl; [discriminate|].
  destruct (p x); [discriminate | exact IH].
Qed.

Lemma existsb_filter_neg {A} (p : A -> bool) l :
  existsb p (filter (fun x => negb (p x)) l) = false.
Proof.
  induction l as [|x l IH]; simpl; [reflexivity|].
  destruct (p x) eqn:E; simpl; [exact IH | now rewrite E].
Qed.

Lemma archive_completed_ok st tasks arch :
  store_ok st = true ->
  _load_tasks st = (Ok tasks, st) ->
  forallb is_dict tasks = true ->
  existsb is_completed tasks = true ->
  archive_collection (archive st) = Some arch ->
  archive_completed_tasks st =
    (Ok ("Archived "
         ++ str_of_int (Z.of_nat (length (filter is_completed tasks)))
         ++ " completed tasks.")%string,
     mkstore (FJson (VList (filter (fun r => negb (is_completed r)) tasks)))
             (FJson (VList (arch ++ filter is_completed tasks)))
             (archive_path :: DATA_PATH :: written st)).
Proof.
  intros Hok Hl Hd Hex Harch.
  pose proof (load_outcome_json _ _ (store_ok_active _ Hok) (load_tasks_inv _ _ Hl)) as Jt.
  pose proof (archive_collection_json _ _ (store_ok_archive _ Hok) Harch) as Ja.
  rewrite (archive_completed_run st tasks Hl Hd (filter_nonempty_existsb _ _ Hex)).
  assert (Ji : map json_roundtrip (filter (fun r => negb (is_completed r)) tasks)
               = filter (fun r => negb (is_completed r)) tasks)
    by (apply json_roundtrip_list; now apply forallb_filter).
  assert (Jc : map json_roundtrip (filter is_completed tasks)
               = filter is_completed tasks)
    by (apply json_roundtrip_list; now apply forallb_filter).
  destruct st as [act ar w]. simpl in Harch. cbv zeta.
  destruct ar as [ | e | v].
  - injection Harch as <-.
    cbn [put_file active archive written json_roundtrip app]. now rewrite Ji, Jc.
  - destruct e; try discriminate. injection Harch as <-.
    cbn [put_file active archive written json_roundtrip app]. now rewrite Ji, Jc.
  - destruct v; try discriminate. injection Harch as ->.
    cbn [put_file active archive written json_roundtrip].
    now rewrite Ji, map_app, Jc, (json_roundtrip_list _ Ja).
Qed.


(** X15.  The active file is rewritten before the archive file is read.
    When some active record is completed and the archive file holds JSON
    that is no list, or cannot be read ([open] refuses it, its bytes are
    not UTF-8, or another error that is not [JSONDecodeError]),
    [archive_completed_tasks] raises ([AttributeError] in the first case,
    the error of the reading in the second) after the completed records
    have left the active file and without a write to the archive: they
    are then in neither file. *)
Theorem archive_failure_loses_completed st tasks :
  store_ok st = true ->
  _load_tasks st = (Ok tasks, st) ->
  forallb is_dict tasks = true ->
  existsb is_completed tasks = true ->
  archive_collection (archive st) = None ->
  exists e st',
    archive_completed_tasks st = (Raise e, st') /\
    match archive st with
    | FJson _ => e = AttributeError
    | FFails e' => e = e'
    | FMissing => False
    end /\
    _load_tasks st' = (Ok (filter (fun r => negb (is_completed r)) tasks), st') /\
    archive st' = archive st /\
    written st' = DATA_PATH :: written st.
Proof.
  intros Hok Hl Hd Hex Harch.
  pose proof (load_outcome_json _ _ (store_ok_active _ Hok) (load_tasks_inv _ _ Hl)) as Jt.
  rewrite (archive_completed_run st tasks Hl Hd (filter_nonempty_existsb _ _ Hex)).
  assert (Ji : forallb is_json (filter (fun r => negb (is_completed r)) tasks) = true)
    by now apply forallb_filter.
  destruct st as [act ar w]. simpl in Harch. cbv zeta.
  destruct ar as [ | e | v]; try discriminate.
  - exists e.
    destruct e; try discriminate;
      (eexists; split; [reflexivity|]; split; [reflexivity|];
       cbn [put_file active archive written]; rewrite load_tasks_run;
       cbn [active load_outcome json_roundtrip];
       rewrite json_roundtrip_list by assumption; auto).
  - destruct v; try discriminate;
      (exists AttributeError; eexists; split; [reflexivity|]; split; [reflexivity|];
       cbn [put_file active archive written]; rewrite load_tasks_run;
       cbn [active load_outcome json_roundtrip];
       rewrite json_roundtrip_list by assumption; auto).
Qed.

(** X16.  After [archive_completed_tasks] has returned, a second call
    finds nothing to archive: it answers so and writes nothing. *)
Theorem archive_then_nothing_left st tasks arch :
  store_ok st = true ->
  _load_tasks st = (Ok tasks, st) ->
  forallb is_dict tasks = true ->
  archive_collection (archive st) = Some arch ->
  exists msg st',
    archive_completed_tasks st = (Ok msg, st') /\
    archive_completed_tasks st' = (Ok "No completed tasks to archive.", st').
Proof.
  intros Hok Hl Hd Harch.
  destruct (existsb is_completed tasks) eqn:Hex.
  - pose proof (archive_completed_ok st tasks arch Hok Hl Hd Hex Harch) as Hr.
    eexists; eexists. split; [exact Hr|].
    apply (archive_nothing_run _ (filter (fun r => negb (is_completed r)) tasks)).
    + reflexivity.
    + now apply forallb_filter.
    + apply existsb_filter_neg.
  - pose proof (archive_nothing_run st tasks Hl Hd Hex) as H.
    eexists; exists st. split; exact H.
Qed.

(** * Archiving, task by task *)

Lemma Forall2_filter {A B} (R : A -> B -> Prop) (p : A -> bool) (q : B -> bool) l m :
  (forall x y, R x y -> p x = q y) ->
  Forall2 R l m -> Forall2 R (filter p l) (filter q m).
Proof.
  intros Hpq. induction 1 as [|x y l m Hxy _ IH]; simpl; [constructor|].
  rewrite (Hpq _ _ Hxy). destruct (q y); [now constructor | exact IH].
Qed.

Lemma stored_as_existsb_completed raw ts :
  Forall2 stored_as raw ts ->
  existsb is_completed raw = existsb completed ts.
Proof.
  induction 1 as [|r t raw ts Hr _ IH]; simpl; [reflexivity|].
  now rewrite (stored_as_completed _ _ Hr), IH.
Qed.

Lemma view_archived_list act l w ats :
  mapR Task_validate l = Ok ats ->
  view_archived_tasks (mkstore act (FJson (VList l)) w) =
  (Ok ats, mkstore act (FJson (VList l)) w).
Proof.
  intros H. unfold view_archived_tasks, bind, try_except, lift. simpl.
  now rewrite H.
Qed.

Lemma view_archived_collection st arch ats :
  archive_collection (archive st) = Some arch ->
  mapR Task_validate arch = Ok ats ->
  view_archived_tasks st = (Ok ats, st).
Proof.
  destruct st as [act [ | e | v] w]; simpl.
  - intros [= <-] [= <-]. reflexivity.
  - destruct e; try discriminate. intros [= <-] [= <-]. reflexivity.
  - destruct v; try discriminate. intros [= <-]. apply view_archived_list.
Qed.

Lemma archive_then_lists_run st ts arch ats :
  store_ok st = true ->
  typed_tasks st = Some ts ->
  archive_collection (archive st) = Some arch ->
  mapR Task_validate arch = Ok ats ->
  exists msg st',
    archive_completed_tasks st = (Ok msg, st') /\
    typed_tasks st' = Some (filter incomplete ts) /\
    view_archived_tasks st' = (Ok (ats ++ filter completed ts), st').
Proof.
  intros Hok Hl Harch Hats.
  destruct (typed_tasks_inv st ts Hok Hl) as (raw & E & Hs).
  assert (Hload : _load_tasks st = (Ok raw, st)) by now rewrite load_tasks_run, E.
  pose proof (stored_as_dicts _ _ Hs) as Hd.
  pose proof (stored_as_existsb_completed _ _ Hs) as Hex.
  destruct (existsb is_completed raw) eqn:Hc.
  - eexists; eexists.
    split; [exact (archive_completed_ok st raw arch Hok Hload Hd Hc Harch)|].
    split.
    + apply typed_tasks_stored with
        (raw := filter (fun r => negb (is_completed r)) raw); [reflexivity|].
      apply Forall2_filter; [|exact Hs].
      intros r t Hr. unfold incomplete. now rewrite (stored_as_completed _ _ Hr).
    + apply view_archived_list. apply mapR_app; [exact Hats|].
      apply mapR_stored_as. apply Forall2_filter; [|exact Hs].
      intros r t Hr. apply (stored_as_completed _ _ Hr).
  - exists "No completed tasks to archive.", st.
    split; [exact (archive_nothing_run st raw Hload Hd Hc)|].
    symmetry in Hex.
    rewrite (existsb_false_filter _ _ Hex), app_nil_r.
    split; [|now apply (view_archived_collection st arch)].
    rewrite Hl. f_equal. symmetry.
    apply (filter_none_all completed). now apply existsb_false_filter.
Qed.

(** X17.  For a store whose active records hold their fields in their
    own JSON types, as the tools write them, and whose archived records
    are validated as tasks: after [archive_completed_tasks], [list_tasks]
    shows the tasks that are not completed, in their order, and
    [view_archived_tasks] shows the tasks archived before followed by the
    completed ones, in their order. *)
Theorem archive_then_list_and_view st ts arch ats :
  store_ok st = true ->
  typed_tasks st = Some ts ->
  archive_collection (archive st) = Some arch ->
  mapR Task_validate arch = Ok ats ->
  exists msg st',
    archive_completed_tasks st = (Ok msg, st') /\
    list_tasks st' = (Ok (filter incomplete ts), st') /\
    typed_tasks st' = Some (filter incomplete ts) /\
    view_archived_tasks st' = (Ok (ats ++ filter completed ts), st').
Proof.
  intros Hok Hl Harch Hats.
  destruct (archive_then_lists_run st ts arch ats Hok Hl Harch Hats)
    as (msg & st' & Hr & Hl' & Hv).
  exists msg, st'. split; [exact Hr|].
  split; [now apply typed_tasks_list|]. split; assumption.
Qed.

Lemma update_first_archived n ts :
  existsb (has_task_id n) ts = true ->
  existsb (has_task_id n) (filter completed (update_first n set_completed ts)) = true.
Proof.
  induction ts as [|t ts IH]; simpl; [discriminate|].
  unfold has_task_id at 1. destruct (id t =? n)%Z eqn:E; simpl.
  - intros _. unfold has_task_id. simpl. now rewrite E.
  - intros H. destruct (completed t); simpl; [|auto].
    unfold has_task_id at 1. rewrite E. simpl. auto.
Qed.

(** X18.  Marking and then archiving moves the task: for a store whose
    active records hold their fields in their own JSON types, as the
    tools write them, and whose archived records are validated as tasks,
    one active task having the id, after [mark_task_completed] and
    [archive_completed_tasks] the active list has no completed task left
    and the archive shows a task with the id. *)
Theorem mark_then_archive st ts arch ats n :
  store_ok st = true ->
  typed_tasks st = Some ts ->
  archive_collection (archive st) = Some arch ->
  mapR Task_validate arch = Ok ats ->
  existsb (has_task_id n) ts = true ->
  exists msg st' active_tasks archived_tasks,
    (mark_task_completed n ;;; archive_completed_tasks) st = (Ok msg, st') /\
    list_tasks st' = (Ok active_tasks, st') /\
    view_archived_tasks st' = (Ok archived_tasks, st') /\
    active_tasks = filter incomplete (update_first n set_completed ts) /\
    archived_tasks = ats ++ filter completed (update_first n set_completed ts) /\
    existsb (has_task_id n) archived_tasks = true.
Proof.
  intros Hok Hl Harch Hats Hex.
  destruct (mark_then_list_run st ts n Hok Hl Hex) as (st1 & Hr & Hl1 & Hok1 & Ha1).
  rewrite <- Ha1 in Harch.
  destruct (archive_then_lists_run st1 _ arch ats Hok1 Hl1 Harch Hats)
    as (msg & st' & Hr2 & Hl2 & Hv2).
  exists msg, st'. eexists; eexists.
  split; [unfold bind; now rewrite Hr|].
  split; [exact (typed_tasks_list _ _ Hl2)|]. split; [exact Hv2|].
  split; [reflexivity|]. split; [reflexivity|].
  rewrite existsb_app, (update_first_archived n ts Hex). apply orb_true_r.
Qed.

(** * More on the order of the sort *)

Section SortedInput.
Context {B : Type} (ltb : B -> B -> bool).

Let le (a b : B) : Prop := ltb b a = false.

Lemma insert_by_last x l :
  Forall (fun y => ltb x y = false) l -> insert_by ltb x l = l ++ [x].
Proof.
  induction 1 as [|y l Hy _ IH]; simpl; [reflexivity|].
  now rewrite Hy, IH.
Qed.

Lemma StronglySorted_app_le (R : B -> B -> Prop) l1 : forall l2,
  StronglySorted R (l1 ++ l2) ->
  forall a b, In a l1 -> In b l2 -> R a b.
Proof.
  induction l1 as [|x l1 IH]; simpl; intros l2 H a b Ha Hb; [contradiction|].
  inversion H as [|? ? Hs Hx]; subst. destruct Ha as [<-|Ha].
  - rewrite Forall_forall in Hx. apply Hx, in_or_app. now right.
  - now apply (IH l2).
Qed.

(** Sorting a list that is in order gives it back. *)
Lemma sort_from_in_order todo : forall placed,
  StronglySorted le (placed ++ todo) ->
  sort_from ltb placed todo = placed ++ todo.
Proof.
  induction todo as [|x todo IH]; intros placed H; simpl.
  - now rewrite app_nil_r.
  - rewrite insert_by_last.
    + rewrite IH; rewrite <- app_assoc; [reflexivity | exact H].
    + rewrite Forall_forall. intros y Hy.
      apply (StronglySorted_app_le le placed (x :: todo) H y x Hy). now left.
Qed.

Lemma StronglySorted_pairwise (R : B -> B -> Prop) l :
  (forall a b, In a l -> In b l -> R a b) -> StronglySorted R l.
Proof.
  induction l as [|x l IH]; intros H; constructor.
  - apply IH. intros a b Ha Hb. apply H; now right.
  - rewrite Forall_forall. intros y Hy. apply H; [now left | now right].
Qed.

End SortedInput.

Lemma date_eqb_fields a b :
  date_eqb a b = true -> year a = year b /\ month a = month b /\ day a = day b.
Proof.
  unfold date_eqb, date_compare.
  destruct (Z.compare_spec (year a) (year b)); try discriminate.
  destruct (Z.compare_spec (month a) (month b)); try discriminate.
  destruct (Z.compare_spec (day a) (day b)); try discriminate. auto.
Qed.

Lemma same_key_not_lt a x y :
  same_key a x = true -> same_key a y = true -> task_ltb y x = false.
Proof.
  unfold same_key. intros Hx Hy.
  apply andb_prop in Hx. destruct Hx as [Hx Hdx].
  apply andb_prop in Hx. destruct Hx as [Hix Hux].
  apply andb_prop in Hy. destruct Hy as [Hy Hdy].
  apply andb_prop in Hy. destruct Hy as [Hiy Huy].
  apply Bool.eqb_prop in Hix, Hux, Hiy, Huy.
  apply date_eqb_fields in Hdx, Hdy.
  destruct (task_ltb y x) eqn:E; [|reflexivity].
  apply task_ltb_spec in E. unfold quadrant, date_lt in E.
  rewrite <- Hix, <- Hux, <- Hiy, <- Huy in E.
  destruct (important a), (urgent a); lia.
Qed.

(** X19.  The sort of [prioritise_tasks] is stable: for a store whose
    records hold their fields in their own JSON types, as the tools write
    them, tasks that agree on importance, urgency and due date come out
    in the order in which they are stored. *)
Theorem prioritise_tasks_stable st ts :
  store_ok st = true ->
  typed_tasks st = Some ts ->
  exists out,
    prioritise_tasks st = (Ok out, st) /\
    forall a, filter (same_key a) out = filter (same_key a) ts.
Proof.
  intros Hok Hl. exists (sort_by task_ltb ts).
  split; [now apply prioritise_tasks_run|].
  intros a. rewrite filter_sort_by.
  - apply (sort_from_in_order task_ltb _ []). simpl.
    apply StronglySorted_pairwise. intros x y Hx Hy.
    apply filter_In in Hx, Hy. destruct Hx as [_ Hx], Hy as [_ Hy].
    now apply (same_key_not_lt a).
  - apply task_ltb_asym.
  - intros x y z. apply task_le_trans.
Qed.

(** X20.  For a store whose records hold their fields in their own JSON
    types, as the tools write them: when the stored tasks already stand
    in priority order, [prioritise_tasks] returns them in the order in
    which they are stored. *)
Theorem prioritise_tasks_in_order st ts :
  store_ok st = true ->
  typed_tasks st = Some ts ->
  StronglySorted eisenhower_le ts ->
  prioritise_tasks st = (Ok ts, st).
Proof.
  intros Hok Hl Hs. rewrite (prioritise_tasks_run st ts Hok Hl).
  do 2 f_equal. apply (sort_from_in_order task_ltb ts []). simpl.
  apply StronglySorted_weaken with (R := eisenhower_le); [|exact Hs].
  intros a b. apply task_ltb_false.
Qed.

(** X21.  For a store whose records hold their fields in their own JSON
    types, as the tools write them, [recommend_tasks_for_today] returns
    five tasks, or all the incomplete ones when there are fewer, and they
    are the most pressing: an incomplete task that is left out stands, in
    the priority order, before none of the tasks returned. *)
Theorem recommend_returns_most_pressing st ts today :
  store_ok st = true ->
  typed_tasks st = Some ts ->
  exists out,
    recommend_tasks_for_today today st = (Ok out, st) /\
    length out = Nat.min 5 (length (filter incomplete ts)) /\
    forall a b, In a out -> In b ts -> completed b = false -> ~ In b out ->
                eisenhower_le a b.
Proof.
  intros Hok Hl.
  set (S := sort_by task_ltb (filter incomplete ts)).
  exists (firstn 5 S). split; [now apply recommend_tasks_run|]. split.
  - rewrite length_firstn. f_equal. unfold S.
    symmetry. apply Permutation_length, sort_by_perm.
  - intros a b Ha Hb Hc Hn.
    assert (HbS : In b S).
    { apply (Permutation_in _ (sort_by_perm task_ltb _)).
      apply filter_In. split; [exact Hb|]. unfold incomplete. now rewrite Hc. }
    rewrite <- (firstn_skipn 5 S) in HbS. apply in_app_or in HbS.
    destruct HbS as [HbS|HbS]; [contradiction|].
    apply (StronglySorted_app_le eisenhower_le (firstn 5 S) (skipn 5 S)); auto.
    rewrite firstn_skipn. apply sort_by_eisenhower.
Qed.

(** * Records that are no tasks *)

Lemma mapR_app_raise {A B} (f : A -> result B) l1 x l2 r1 e :
  mapR f l1 = Ok r1 -> f x = Raise e -> mapR f (l1 ++ x :: l2) = Raise e.
Proof.
  revert r1. induction l1 as [|y l1 IH]; simpl; intros r1 H1 Hx.
  - now rewrite Hx.
  - destruct (f y) as [z|]; simpl in *; [|discriminate].
    destruct (mapR f l1) as [zs|] eqn:E; simpl in *; [|discriminate].
    now rewrite (IH _ eq_refl Hx).
Qed.

Lemma validate_needs_field f k :
  In k required_fields -> lookup k f = None ->
  Task_validate (VDict f) = Raise ValidationError.
Proof.
  intros Hk Hnone.
  destruct (Task_validate (VDict f)) as [t|e] eqn:E.
  - exfalso. exact (validate_has_fields _ _ _ E Hk Hnone).
  - now rewrite (validate_dict_raises _ _ E).
Qed.

(** X22.  [list_tasks] converts every stored element or fails as a whole:
    when the elements before it are tasks, a stored element that is no
    object makes it raise [TypeError], and a record that lacks one of the
    six required fields makes it raise the validation error; no task is
    returned and nothing is written. *)
Theorem list_tasks_needs_tasks st pre x post pts :
  _load_tasks st = (Ok (pre ++ x :: post), st) ->
  mapR Task_validate pre = Ok pts ->
  (is_dict x = false -> list_tasks st = (Raise TypeError, st)) /\
  (forall f k, x = VDict f -> In k required_fields -> lookup k f = None ->
     list_tasks st = (Raise ValidationError, st)).
Proof.
  intros Hl Hp. unfold list_tasks, bind, lift. rewrite Hl. split.
  - intros Hx. rewrite (mapR_app_raise _ _ _ _ _ TypeError Hp); [reflexivity|].
    destruct x; try reflexivity. discriminate.
  - intros f k -> Hk Hnone.
    rewrite (mapR_app_raise _ _ _ _ _ ValidationError Hp); [reflexivity|].
    now apply (validate_needs_field f k).
Qed.

(** * Failures of loading *)

(** X23.  An error of reading the active file that [_load_tasks] does
    not catch comes out of every tool that loads the tasks, and the tool
    has written nothing. *)
Theorem load_failure_comes_out st e today n i ti de du im ur su co :
  _load_tasks st = (Raise e, st) ->
  list_tasks st = (Raise e, st) /\
  add_task i ti de du im ur su co st = (Raise e, st) /\
  explain_task n st = (Raise e, st) /\
  decompose_task n st = (Raise e, st) /\
  prioritise_tasks st = (Raise e, st) /\
  recommend_tasks_for_today today st = (Raise e, st) /\
  mark_task_completed n st = (Raise e, st) /\
  archive_completed_tasks st = (Raise e, st).
Proof.
  intros H.
  unfold list_tasks, add_task, explain_task, decompose_task, prioritise_tasks,
    recommend_tasks_for_today, mark_task_completed, archive_completed_tasks, bind.
  rewrite H. repeat split; reflexivity.
Qed.

End FurtherProperties.

(** * Instances of the further properties

    As before, for a validating library that coerces nothing. *)

Section FurtherInstances.
#[local] Existing Instance no_coercions.

Lemma explain_task_of_stored_sample :
  explain_task 3 sample_store =
  (Ok "Task 'Plan trip' is important and not urgent. It is due on 2025-03-03. Description: Buy milk. Walk dog. Pay bills.",
   sample_store).
Proof.
  apply (explain_task_of_stored sample_store sample_tasks 3
           (nth 2 sample_tasks (mkTask 0 EmptyString EmptyString date_max false false [] false)));
    reflexivity.
Defined.

Lemma explain_task_not_found_sample :
  explain_task 99 sample_store = (Ok "No task found with id 99.", sample_store).
Proof.
  apply (explain_task_not_found sample_store sample_records 99); reflexivity.
Defined.

Lemma mark_task_completed_found_sample :
  exists st',
    mark_task_completed 3 sample_store = (Ok "Task 3 marked as completed.", st') /\
    written st' = [DATA_PATH].
Proof.
  destruct (mark_task_completed_found sample_store
              (firstn 2 sample_records) plan_fields (skipn 3 sample_records) 3
              eq_refl eq_refl eq_refl eq_refl eq_refl)
    as (f' & st' & Hr & _ & _ & _ & _ & Hw).
  exists st'. split; [exact Hr | exact Hw].
Defined.

Lemma mark_task_completed_then_list_sample :
  exists st',
    mark_task_completed 3 sample_store = (Ok "Task 3 marked as completed.", st') /\
    list_tasks st' = (Ok (update_first 3 set_completed sample_tasks), st') /\
    typed_tasks st' = Some (update_first 3 set_completed sample_tasks).
Proof.
  apply (mark_task_completed_then_list sample_store sample_tasks 3); reflexivity.
Defined.

Lemma mark_task_completed_twice_sample :
  exists st1 st2,
    mark_task_completed 3 sample_store = (Ok "Task 3 marked as completed.", st1) /\
    mark_task_completed 3 st1 = (Ok "Task 3 marked as completed.", st2) /\
    active st2 = active st1 /\ archive st2 = archive st1.
Proof.
  apply (mark_task_completed_twice sample_store
           (firstn 2 sample_records) plan_fields (skipn 3 sample_records) 3);
    reflexivity.
Defined.

Lemma decompose_task_not_found_sample :
  decompose_task 99 sample_store = (Ok [], sample_store).
Proof.
  apply (decompose_task_not_found sample_store sample_records 99); reflexivity.
Defined.

Lemma decompose_task_twice_sample :
  exists parts st1 st2,
    decompose_task 3 sample_store = (Ok parts, st1) /\
    decompose_task 3 st1 = (Ok parts, st2) /\
    active st2 = active st1 /\ archive st2 = archive st1.
Proof.
  apply (decompose_task_twice sample_store
           (firstn 2 sample_records) plan_fields (skipn 3 sample_records) 3
           "Buy milk. Walk dog. Pay bills.");
    reflexivity.
Defined.

Lemma decompose_task_then_list_sample :
  exists t st',
    find (has_task_id 3) sample_tasks = Some t /\
    decompose_task 3 sample_store = (Ok (fragments (description t)), st') /\
    list_tasks st' =
      (Ok (update_first 3
             (fun t => set_subtasks (fragments (description t)) t) sample_tasks), st') /\
    typed_tasks st' =
      Some (update_first 3
              (fun t => set_subtasks (fragments (description t)) t) sample_tasks).
Proof.
  apply (decompose_task_then_list sample_store sample_tasks 3); reflexivity.
Defined.

Lemma lookups_need_objects_sample :
  mark_task_completed 2 mixed_store = (Raise AttributeError, mixed_store) /\
  decompose_task 2 mixed_store = (Raise AttributeError, mixed_store) /\
  explain_task 2 mixed_store = (Raise AttributeError, mixed_store).
Proof.
  apply (lookups_need_objects mixed_store [dated_record] (VInt 7) [undated_record] 2);
    reflexivity.
Defined.

Lemma decompose_task_description_not_text_sample :
  decompose_task 8 numbered_store = (Raise AttributeError, numbered_store).
Proof.
  apply (decompose_task_description_not_text numbered_store
           [dated_record] numbered_fields [] 8);
    reflexivity.
Defined.

Lemma add_task_appends_sample :
  exists st',
    fst (add_task 3 "Again" "Same id." (mkdate 2025 4 1) false false None false
           sample_store) =
      Ok (mkTask 3 "Again" "Same id." (mkdate 2025 4 1) false false [] false) /\
    active st' =
      FJson (VList (sample_records ++ [json_roundtrip (model_dump
        (mkTask 3 "Again" "Same id." (mkdate 2025 4 1) false false [] false))])).
Proof.
  destruct (add_task_appends sample_store sample_records 3 "Again" "Same id."
              (mkdate 2025 4 1) false false None false eq_refl eq_refl)
    as (st' & Hr & Ha & _).
  exists st'. split; [now rewrite Hr | exact Ha].
Defined.

Lemma add_task_same_id_then_mark_sample :
  exists st',
    fst ((add_task 3 "Again" "Same id." (mkdate 2025 4 1) false false None false ;;;
          mark_task_completed 3) sample_store) = Ok "Task 3 marked as completed." /\
    map is_completed
      (match active st' with FJson (VList l) => l | _ => [] end) =
    [false; false; true; false; true; false].
Proof.
  destruct (add_task_same_id_then_mark sample_store
              (firstn 2 sample_records) plan_fields (skipn 3 sample_records) 3
              "Again" "Same id." (mkdate 2025 4 1) false false None false
              eq_refl eq_refl eq_refl eq_refl eq_refl)
    as (st' & Hr & Hl).
  exists st'. split; [now rewrite Hr|].
  apply load_tasks_inv in Hl.
  destruct (active st') as [ | [] | []]; simpl in Hl; try discriminate;
    injection Hl as ->; reflexivity.
Defined.


Lemma archive_failure_loses_completed_sample :
  (exists st',
     archive_completed_tasks odd_archive_store = (Raise AttributeError, st') /\
     _load_tasks st' = (Ok (firstn 4 sample_records), st') /\
     archive st' = FJson (VDict [])) /\
  (exists st',
     archive_completed_tasks undecodable_archive_store =
       (Raise UnicodeDecodeError, st') /\
     _load_tasks st' = (Ok (firstn 4 sample_records), st') /\
     archive st' = FUndecodable).
Proof.
  split.
  - destruct (archive_failure_loses_completed odd_archive_store sample_records
                eq_refl eq_refl eq_refl eq_refl eq_refl)
      as (e & st' & Hr & He & Hl & Ha & _).
    simpl in He. subst e.
    exists st'. split; [exact Hr|]. split; [exact Hl | exact Ha].
  - destruct (archive_failure_loses_completed undecodable_archive_store
                sample_records eq_refl eq_refl eq_refl eq_refl eq_refl)
      as (e & st' & Hr & He & Hl & Ha & _).
    simpl in He. subst e.
    exists st'. split; [exact Hr|]. split; [exact Hl | exact Ha].
Defined.

Lemma archive_then_nothing_left_sample :
  exists msg st',
    archive_completed_tasks sample_store = (Ok msg, st') /\
    archive_completed_tasks st' = (Ok "No completed tasks to archive.", st').
Proof.
  apply (archive_then_nothing_left sample_store sample_records []); reflexivity.
Defined.

Lemma archive_then_list_and_view_sample :
  exists msg st',
    archive_completed_tasks sample_store = (Ok msg, st') /\
    list_tasks st' = (Ok (filter incomplete sample_tasks), st') /\
    typed_tasks st' = Some (filter incomplete sample_tasks) /\
    view_archived_tasks st' = (Ok ([] ++ filter completed sample_tasks), st').
Proof.
  apply (archive_then_list_and_view sample_store sample_tasks [] []); reflexivity.
Defined.

Lemma mark_then_archive_sample :
  exists msg st' active_tasks archived_tasks,
    (mark_task_completed 3 ;;; archive_completed_tasks) sample_store = (Ok msg, st') /\
    list_tasks st' = (Ok active_tasks, st') /\
    view_archived_tasks st' = (Ok archived_tasks, st') /\
    active_tasks = filter incomplete (update_first 3 set_completed sample_tasks) /\
    archived_tasks = [] ++ filter completed (update_first 3 set_completed sample_tasks) /\
    existsb (has_task_id 3) archived_tasks = true.
Proof.
  apply (mark_then_archive sample_store sample_tasks [] [] 3); reflexivity.
Defined.

Lemma prioritise_tasks_stable_sample :
  exists out,
    prioritise_tasks sample_store = (Ok out, sample_store) /\
    forall a, filter (same_key a) out = filter (same_key a) sample_tasks.
Proof.
  apply (prioritise_tasks_stable sample_store sample_tasks); reflexivity.
Defined.

Lemma ordered_tasks_in_order : StronglySorted eisenhower_le ordered_tasks.
Proof.
  repeat constructor; left; vm_compute; lia.
Qed.

Lemma prioritise_tasks_in_order_sample :
  prioritise_tasks ordered_store = (Ok ordered_tasks, ordered_store).
Proof.
  apply (prioritise_tasks_in_order ordered_store ordered_tasks);
    [reflexivity | reflexivity | exact ordered_tasks_in_order].
Defined.

Lemma recommend_returns_most_pressing_sample :
  exists out,
    recommend_tasks_for_today (mkdate 2025 6 1) sample_store = (Ok out, sample_store) /\
    length out = Nat.min 5 (length (filter incomplete sample_tasks)) /\
    forall a b, In a out -> In b sample_tasks -> completed b = false -> ~ In b out ->
                eisenhower_le a b.
Proof.
  apply (recommend_returns_most_pressing sample_store sample_tasks); reflexivity.
Defined.

Lemma list_tasks_needs_tasks_sample :
  list_tasks mixed_store = (Raise TypeError, mixed_store) /\
  list_tasks undated_last_store = (Raise ValidationError, undated_last_store).
Proof.
  split.
  - apply (list_tasks_needs_tasks mixed_store [dated_record] (VInt 7)
             [undated_record] _ eq_refl eq_refl). reflexivity.
  - destruct (list_tasks_needs_tasks undated_last_store [dated_record]
                undated_record [] _ eq_refl eq_refl) as [_ H].
    apply (H _ "due" eq_refl); [simpl; tauto | reflexivity].
Defined.

Lemma load_failure_comes_out_sample :
  list_tasks undecodable_store = (Raise UnicodeDecodeError, undecodable_store) /\
  add_task 6 "Water plants" "Fill can. Water." (mkdate 2025 12 24)
    false true None false undecodable_store =
    (Raise UnicodeDecodeError, undecodable_store) /\
  explain_task 1 undecodable_store = (Raise UnicodeDecodeError, undecodable_store) /\
  decompose_task 1 undecodable_store = (Raise UnicodeDecodeError, undecodable_store) /\
  prioritise_tasks undecodable_store = (Raise UnicodeDecodeError, undecodable_store) /\
  recommend_tasks_for_today (mkdate 2025 6 1) undecodable_store =
    (Raise UnicodeDecodeError, undecodable_store) /\
  mark_task_completed 1 undecodable_store =
    (Raise UnicodeDecodeError, undecodable_store) /\
  archive_completed_tasks undecodable_store =
    (Raise UnicodeDecodeError, undecodable_store).
Proof.
  apply (load_failure_comes_out undecodable_store UnicodeDecodeError); reflexivity.
Defined.

End FurtherInstances.
